(** * Code Review Assistant: heuristics, section parser and stream emitter

    A shallow embedding of [main.py]: the three heuristic analysis tools
    ([analyze_security_patterns], [calculate_complexity_metrics],
    [assess_code_quality_metrics]), the response parser [parse_sections]
    and the event emitter [generate_review_stream], followed by the
    properties established about them.

    Conventions of the embedding.
    - A Python [str] is a [list ascii]; a character is a code point below
      256.  [lower], [isspace] follow Python on that range.
    - A Python [int] is a [Z]; a Python [float] is an IEEE-754 binary64
      value, [spec_float] with the operations of [SpecFloat].
    - A [dict] built from a literal and returned as a value is an
      insertion-ordered list of key/value pairs ([VDict]); a [dict] used as
      a lookup table or updated by key is a [gmap].
    - The language model behind [code_review_agent] is an external
      collaborator: it is a parameter of the emitter. *)

From Stdlib Require Import ZArith Ascii String List Permutation Floats.
From stdpp Require Import gmap strings list.
Import ListNotations.

Local Open Scope Z_scope.

(** ** Strings *)

Abbreviation str := (list ascii).

(** A Python string literal. *)
Definition py (s : string) : str := list_ascii_of_string s.

Definition ord (c : ascii) : Z := Z.of_N (N_of_ascii c).
Definition chr (n : Z) : ascii := ascii_of_N (Z.to_N n).

(** [len(x)] *)
Definition len {A} (l : list A) : Z := Z.of_nat (length l).

(** [c.lower()] for one character: A-Z and the Latin-1 capitals
    (U+00C0..U+00DE except the multiplication sign U+00D7) move by 32. *)
Definition lower_char (c : ascii) : ascii :=
  let n := ord c in
  if ((65 <=? n) && (n <=? 90)) || ((192 <=? n) && (n <=? 222) && negb (n =? 215))
  then chr (n + 32) else c.

(** [c.upper()] for one character, exact on ASCII.  The embedding applies it
    only to text matched by the header alternatives of [parse_sections]. *)
Definition upper_char (c : ascii) : ascii :=
  let n := ord c in
  if (97 <=? n) && (n <=? 122) then chr (n - 32) else c.

Definition lower (s : str) : str := map lower_char s.
Definition upper (s : str) : str := map upper_char s.

(** [c.isspace()], also the class [\s] of [re] on [str] patterns:
    TAB..CR, FS..US, space, NEL and NBSP. *)
Definition isspace (c : ascii) : bool :=
  let n := ord c in
  ((9 <=? n) && (n <=? 13)) || ((28 <=? n) && (n <=? 32)) || (n =? 133) || (n =? 160).

(** [s.startswith(p)] *)
Fixpoint startswith (p s : str) : bool :=
  match p, s with
  | [], _ => true
  | _ :: _, [] => false
  | a :: p', b :: s' => Ascii.eqb a b && startswith p' s'
  end.

(** [sub in s] *)
Fixpoint contains (sub s : str) : bool :=
  startswith sub s ||
  match s with
  | [] => false
  | _ :: s' => contains sub s'
  end.

(** [s.count(sub)]: occurrences found left to right without overlap.
    [skip] is the number of characters still covered by the occurrence
    found last. *)
Fixpoint count_from (sub s : str) (skip : nat) : Z :=
  match s with
  | [] => match sub with [] => 1 | _ => 0 end
  | _ :: s' =>
      match skip with
      | S k => count_from sub s' k
      | O => if startswith sub s
             then 1 + count_from sub s' (length sub - 1)
             else count_from sub s' 0
      end
  end.

Definition count (sub s : str) : Z := count_from sub s 0.

Definition newline : ascii := "010"%char.

(** [s.split('\n')] *)
Fixpoint split_lines (s : str) : list str :=
  match s with
  | [] => [[]]
  | c :: s' =>
      if Ascii.eqb c newline then [] :: split_lines s'
      else match split_lines s' with
           | l :: ls => (c :: l) :: ls
           | [] => [[c]]
           end
  end.

(** [s.lstrip()], [s.rstrip()], [s.strip()] *)
Fixpoint lstrip (s : str) : str :=
  match s with
  | c :: s' => if isspace c then lstrip s' else s
  | [] => []
  end.

Definition rstrip (s : str) : str := rev (lstrip (rev s)).
Definition strip (s : str) : str := rstrip (lstrip s).

(** Truth value of a string: non-empty. *)
Definition truthy (s : str) : bool :=
  match s with [] => false | _ => true end.

(** ** Python values returned by the tools *)

#[local] Set Warnings "-register-all".

Inductive pyval :=
| VStr (s : str)
| VInt (n : Z)
| VFloat (f : spec_float)
| VBool (b : bool)
| VList (l : list pyval)
| VDict (d : list (str * pyval)).

(** Keys of a returned dict, in insertion order. *)
Definition keys (v : pyval) : list str :=
  match v with
  | VDict d => map fst d
  | _ => []
  end.

(** ** analyze_security_patterns *)

Record pattern := {
  indicators : list str;
  severity : str;
  description : str
}.

Definition patterns : gmap str pattern :=
  list_to_map [
    (py "sql_injection",
     {| indicators := map py ["execute("; "query("; "raw("; "filter("; "SELECT"; "INSERT"; "UPDATE"; "DELETE"];
        severity := py "Critical";
        description := py "Potential SQL injection vulnerability detected" |});
    (py "xss",
     {| indicators := map py ["innerHTML"; "dangerouslySetInnerHTML"; "document.write"; "eval("];
        severity := py "High";
        description := py "Potential XSS vulnerability detected" |});
    (py "auth",
     {| indicators := map py ["password"; "token"; "session"; "auth"; "login"; "credential"];
        severity := py "High";
        description := py "Authentication/Authorization pattern detected" |});
    (py "secrets",
     {| indicators := map py ["api_key"; "secret"; "password ="; "token ="; "AWS_"; "SECRET_KEY"];
        severity := py "Critical";
        description := py "Potential hardcoded secrets detected" |});
    (py "csrf",
     {| indicators := map py ["POST"; "PUT"; "DELETE"; "form"; "csrf"];
        severity := py "Medium";
        description := py "CSRF protection check required" |});
    (py "input_validation",
     {| indicators := map py ["input("; "request."; "params"; "query"; "body"];
        severity := py "High";
        description := py "Input validation required" |})
  ].

(** The dict appended to [findings] for one indicator. *)
Definition finding (p : pattern) (indicator : str) : pyval :=
  VDict [ (py "indicator", VStr indicator);
          (py "severity", VStr (severity p));
          (py "description", VStr (description p));
          (py "found", VBool true) ].

(** The loop over [pattern['indicators']]: [findings] is threaded through
    and extended at its end by [append]. *)
Fixpoint scan_indicators (p : pattern) (code : str) (inds : list str)
    (findings : list pyval) : list pyval :=
  match inds with
  | [] => findings
  | indicator :: rest =>
      if contains (lower indicator) (lower code)
      then scan_indicators p code rest (findings ++ [finding p indicator])
      else scan_indicators p code rest findings
  end.

Definition analyze_security_patterns (code pattern_type : str) : pyval :=
  match patterns !! pattern_type with
  | None =>
      VDict [ (py "error", VStr (py "Unknown pattern type: " ++ pattern_type)) ]
  | Some p =>
      let findings := scan_indicators p code (indicators p) [] in
      VDict [ (py "pattern_type", VStr pattern_type);
              (py "findings", VList findings);
              (py "total_findings", VInt (len findings));
              (py "severity",
               VStr (match findings with [] => py "None" | _ => severity p end)) ]
  end.

(** ** calculate_complexity_metrics *)

(** [any(k in s for k in ks)] *)
Definition any_in (ks : list str) (s : str) : bool :=
  existsb (fun k => contains k s) ks.

Definition loops : list str := map py ["for "; "while "; "foreach"].

(** The three counters the loop over the lines updates. *)
Record nesting := {
  nesting_level : Z;
  max_nesting : Z;
  nested_loops : Z
}.

(** One iteration of [for line in lines]. *)
Definition complexity_step (st : nesting) (line : str) : nesting :=
  let st1 :=
    if any_in loops (lower line) then
      let level := nesting_level st + 1 in
      {| nesting_level := level;
         max_nesting := Z.max (max_nesting st) level;
         nested_loops := if level >? 1 then nested_loops st + 1 else nested_loops st |}
    else st in
  if contains (py "}") line || contains (py "end") (lower line) then
    {| nesting_level := Z.max 0 (nesting_level st1 - 1);
       max_nesting := max_nesting st1;
       nested_loops := nested_loops st1 |}
  else st1.

Definition scan_nesting (lines : list str) : nesting :=
  fold_left complexity_step lines
    {| nesting_level := 0; max_nesting := 0; nested_loops := 0 |}.

Definition calculate_complexity_metrics (code : str) : pyval :=
  let lines := split_lines code in
  let total_lines := len lines in
  let db_queries :=
    count (py "query") (lower code) + count (py "select") (lower code)
    + count (py "find(") (lower code) in
  let st := scan_nesting lines in
  let async_operations :=
    count (py "async") (lower code) + count (py "await") (lower code)
    + count (py "promise") (lower code) in
  let blocking_operations :=
    count (py "sleep") (lower code) + count (py "thread.") (lower code)
    + count (py "lock") (lower code) in
  let complexity_score :=
    nested_loops st * 3 + db_queries * 2 + blocking_operations * 4
    + max_nesting st * 2 in
  let '(complexity_level, impact) :=
    if complexity_score >? 20 then
      (py "High", py "Significant performance issues likely")
    else if complexity_score >? 10 then
      (py "Medium", py "Moderate performance concerns")
    else
      (py "Low", py "Good performance characteristics") in
  VDict [ (py "total_lines", VInt total_lines);
          (py "nested_loops", VInt (nested_loops st));
          (py "database_queries", VInt db_queries);
          (py "async_operations", VInt async_operations);
          (py "blocking_operations", VInt blocking_operations);
          (py "max_nesting_level", VInt (max_nesting st));
          (py "complexity_score", VInt complexity_score);
          (py "complexity_level", VStr complexity_level);
          (py "performance_impact", VStr impact) ].

(** ** Numbers of assess_code_quality_metrics *)

(** A Python number: [quality_score] starts as the [int] 0 and becomes a
    [float] as soon as a [float] is added to it. *)
Inductive pynum :=
| NInt (z : Z)
| NFloat (f : spec_float).

(** [float(z)], correctly rounded. *)
Definition float_of_int (z : Z) : spec_float := binary_normalize prec emax z 0 false.

Definition to_float (n : pynum) : spec_float :=
  match n with
  | NInt z => float_of_int z
  | NFloat f => f
  end.

(** [a / b] on two [int]s, for operands below 2^53 (any count over a
    string that fits in memory). *)
Definition truediv (a b : Z) : spec_float :=
  SFdiv prec emax (float_of_int a) (float_of_int b).

Definition fmul (x y : spec_float) : spec_float := SFmul prec emax x y.

Definition num_add (n m : pynum) : pynum :=
  match n, m with
  | NInt a, NInt b => NInt (a + b)
  | _, _ => NFloat (SFadd prec emax (to_float n) (to_float m))
  end.

Definition num_lt (n m : pynum) : bool :=
  match n, m with
  | NInt a, NInt b => a <? b
  | _, _ => SFltb (to_float n) (to_float m)
  end.

(** [min(a, b)]: the first argument unless the second is smaller. *)
Definition num_min (a b : pynum) : pynum := if num_lt b a then b else a.

(** The float literal [0.1]. *)
Definition tenth : spec_float := truediv 1 10.

(** Nearest integer to [n / d], ties to even ([d] positive). *)
Definition div_half_even (n d : Z) : Z :=
  let q := n / d in
  let r := n mod d in
  if 2 * r <? d then q
  else if d <? 2 * r then q + 1
  else if Z.even q then q else q + 1.

(** [round(x, 2)] on a float: the binary value is rounded to two decimals,
    ties to even, and the decimal is read back as the nearest float. *)
Definition round2_float (x : spec_float) : spec_float :=
  match x with
  | S754_finite s m e =>
      let hundredths :=
        if 0 <=? e then Z.pos m * 100 * 2 ^ e
        else div_half_even (Z.pos m * 100) (2 ^ (- e)) in
      let q := truediv hundredths 100 in
      if s then SFopp q else q
  | _ => x
  end.

(** [round(n, 2)]: an [int] is returned as it is. *)
Definition round2 (n : pynum) : pynum :=
  match n with
  | NInt z => NInt z
  | NFloat f => NFloat (round2_float f)
  end.

Definition val_of_num (n : pynum) : pyval :=
  match n with
  | NInt z => VInt z
  | NFloat f => VFloat f
  end.

(** ** assess_code_quality_metrics *)

Definition dquote : ascii := chr 34.

Definition is_comment (l : str) : bool :=
  startswith (py "#") (strip l) || startswith (py "//") (strip l).

Definition short_names : list str := map py ["a="; "b="; "x="; "y="; "temp="; "tmp="].

Definition assess_code_quality_metrics (code : str) : pyval :=
  let lines := split_lines code in
  let total_lines := len (List.filter (fun l => truthy (strip l)) lines) in
  let comment_lines := len (List.filter is_comment lines) in
  let long_lines := len (List.filter (fun l => len l >? 100) lines) in
  let function_count :=
    count (py "def ") (lower code) + count (py "function ") (lower code)
    + count (py "const ") (lower code) + count (py "let ") (lower code)
    + count (py "var ") (lower code) in
  let avg_function_length := truediv total_lines (Z.max function_count 1) in
  let naming_issues :=
    if any_in short_names code
    then [VStr (py "Short/unclear variable names detected")] else [] in
  let has_error_handling :=
    contains (py "try") (lower code)
    && (contains (py "catch") (lower code) || contains (py "except") (lower code)) in
  let has_documentation :=
    contains [dquote; dquote; dquote] code || contains (py "///") code
    || contains (py "/**") code in
  let comment_ratio :=
    fmul (truediv comment_lines (Z.max total_lines 1)) (float_of_int 100) in
  let quality_score := NInt 0 in
  let quality_score :=
    num_add quality_score
      (num_min (NInt 30) (NFloat (fmul comment_ratio (float_of_int 3)))) in
  let quality_score :=
    num_add quality_score (NInt (if has_error_handling then 20 else 0)) in
  let quality_score :=
    num_add quality_score (NInt (if has_documentation then 15 else 0)) in
  let quality_score :=
    num_add quality_score
      (NInt (if num_lt (NFloat avg_function_length) (NInt 30) then 20
             else if num_lt (NFloat avg_function_length) (NInt 50) then 10
             else 0)) in
  let quality_score :=
    num_add quality_score
      (NInt (if num_lt (NInt long_lines)
                       (NFloat (fmul (float_of_int total_lines) tenth))
             then 15 else 5)) in
  VDict [ (py "total_lines", VInt total_lines);
          (py "comment_lines", VInt comment_lines);
          (py "comment_ratio", VFloat (round2_float comment_ratio));
          (py "long_lines", VInt long_lines);
          (py "function_count", VInt function_count);
          (py "avg_function_length", VFloat (round2_float avg_function_length));
          (py "has_error_handling", VBool has_error_handling);
          (py "has_documentation", VBool has_documentation);
          (py "naming_issues", VList naming_issues);
          (py "quality_score", val_of_num (round2 quality_score));
          (py "quality_level",
           VStr (if num_lt (NInt 70) quality_score then py "High"
                 else if num_lt (NInt 40) quality_score then py "Medium"
                 else py "Low")) ].

(** ** The module state

    What the script binds at import time and a function could read or
    assign: the process environment.  A computation takes the module state
    and returns it with its result. *)

Record globals := {
  environ : gmap str str
}.

Definition Py (A : Type) : Type := globals -> A * globals.

Definition ret {A} (a : A) : Py A := fun g => (a, g).

Definition bind {A B} (m : Py A) (k : A -> Py B) : Py B :=
  fun g => let '(a, g') := m g in k a g'.

(** [os.getenv(key, default)] *)
Definition getenv (key default : str) : Py str :=
  fun g => (match environ g !! key with Some v => v | None => default end, g).

(** [GET /health], the one handler that reads the module state. *)
Definition health_check : Py pyval :=
  bind (getenv (py "BEDROCK_MODEL_ID") (py "anthropic.claude-3-5-sonnet-20240620-v1:0"))
    (fun model_id =>
  bind (getenv (py "AWS_REGION") (py "us-east-1"))
    (fun region =>
  ret (VDict [ (py "status", VStr (py "healthy"));
               (py "service", VStr (py "Code Review Assistant"));
               (py "model_provider", VStr (py "Amazon Bedrock"));
               (py "model_id", VStr model_id);
               (py "region", VStr region) ]))).

(** ** re.split with the header pattern *)

Definition headers : list str :=
  map py ["SECURITY ANALYSIS"; "PERFORMANCE ANALYSIS";
          "READABILITY ANALYSIS"; "COMPREHENSIVE SUMMARY"].

(** A literal matched at the start of [s] under [re.IGNORECASE]: the text
    it matched and the rest.  On code points below 256 a character matches
    a pattern character exactly when the two have the same lowercase. *)
Fixpoint match_literal (lit s : str) : option (str * str) :=
  match lit, s with
  | [], _ => Some ([], s)
  | _ :: _, [] => None
  | a :: lit', b :: s' =>
      if Ascii.eqb (lower_char a) (lower_char b) then
        match match_literal lit' s' with
        | Some (m, r) => Some (b :: m, r)
        | None => None
        end
      else None
  end.

(** The group [(A|B|C|D)]: the first alternative that matches. *)
Fixpoint match_alternatives (alts : list str) (s : str) : option (str * str) :=
  match alts with
  | [] => None
  | a :: rest =>
      match match_literal a s with
      | Some r => Some r
      | None => match_alternatives rest s
      end
  end.

(** The rest of [\s+] once one space is taken, then the group: more spaces
    are tried first, the group after giving them back. *)
Fixpoint match_spaces (s : str) : option (str * str) :=
  match s with
  | c :: s' =>
      if isspace c then
        match match_spaces s' with
        | Some r => Some r
        | None => match_alternatives headers s
        end
      else match_alternatives headers s
  | [] => match_alternatives headers s
  end.

(** The whole pattern at the start of [s]: the text of group 1 and what
    follows the match. *)
Definition match_here (s : str) : option (str * str) :=
  match s with
  | a :: b :: c :: s' =>
      if Ascii.eqb a "#" && Ascii.eqb b "#" && isspace c
      then match_spaces s' else None
  | _ => None
  end.

(** The leftmost match in [s]: the text before it, group 1, the text
    after it. *)
Fixpoint search (s : str) : option (str * str * str) :=
  match match_here s with
  | Some (g, rest) => Some ([], g, rest)
  | None =>
      match s with
      | [] => None
      | c :: s' =>
          match search s' with
          | Some (pre, g, rest) => Some (c :: pre, g, rest)
          | None => None
          end
      end
  end.

(** [re.split]: the text before each match, then its group, and the text
    after the last match.  A match is never empty, so [length s] rounds
    are enough. *)
Fixpoint split_from (fuel : nat) (s : str) : list str :=
  match fuel with
  | O => [s]
  | S fuel' =>
      match search s with
      | None => [s]
      | Some (pre, g, rest) => pre :: g :: split_from fuel' rest
      end
  end.

Definition re_split (s : str) : list str := split_from (length s) s.

(** ** parse_sections *)

(** [range(start, stop, step)] for a positive step. *)
Definition range (start stop step : nat) : list nat :=
  map (fun k => (start + k * step)%nat)
      (seq 0 (Nat.div (stop - start + (step - 1)) step)).

(** One iteration of [for i in range(1, len(parts), 2)]. *)
Definition parse_step (parts : list str) (sections : gmap str str) (i : nat)
    : gmap str str :=
  if (i + 1 <? length parts)%nat then
    match parts !! i, parts !! (i + 1)%nat with
    | Some name, Some text =>
        let section_name := upper (strip name) in
        let section_content := strip text in
        if contains (py "SECURITY") section_name then
          <[py "security" := section_content]> sections
        else if contains (py "PERFORMANCE") section_name then
          <[py "performance" := section_content]> sections
        else if contains (py "READABILITY") section_name then
          <[py "readability" := section_content]> sections
        else if contains (py "SUMMARY") section_name
                || contains (py "COMPREHENSIVE") section_name then
          <[py "summary" := section_content]> sections
        else sections
    | _, _ => sections
    end
  else sections.

Definition empty_sections : gmap str str :=
  list_to_map [ (py "security", []); (py "performance", []);
                (py "readability", []); (py "summary", []) ].

Definition parse_sections (full_response : str) : gmap str str :=
  let parts := re_split full_response in
  fold_left (parse_step parts) (range 1 (length parts) 2) empty_sections.

(** ** Frames and their wire form *)

(** The dict handed to [json.dumps] at a [yield]: string keys and string
    values, in the order of the literal. *)
Abbreviation frame := (list (str * str)).

(** [d.get(key)] *)
Fixpoint field (key : str) (d : frame) : option str :=
  match d with
  | [] => None
  | (k, v) :: rest => if decide (k = key) then Some v else field key rest
  end.

Definition frame_type (d : frame) : option str := field (py "type") d.

Definition hex_digit (n : Z) : ascii :=
  if n <? 10 then chr (48 + n) else chr (87 + n).

Definition backslash : ascii := chr 92.

(** One character inside a JSON string, [ensure_ascii] on. *)
Definition json_escape (c : ascii) : str :=
  let n := ord c in
  if n =? 34 then [backslash; dquote]
  else if n =? 92 then [backslash; backslash]
  else if n =? 10 then [backslash; "n"%char]
  else if n =? 13 then [backslash; "r"%char]
  else if n =? 9 then [backslash; "t"%char]
  else if n =? 8 then [backslash; "b"%char]
  else if n =? 12 then [backslash; "f"%char]
  else if (32 <=? n) && (n <=? 126) then [c]
  else [backslash; "u"%char; "0"%char; "0"%char; hex_digit (n / 16); hex_digit (n mod 16)].

Definition json_string (s : str) : str :=
  [dquote] ++ flat_map json_escape s ++ [dquote].

(** [sep.join(items)] *)
Fixpoint join (sep : str) (items : list str) : str :=
  match items with
  | [] => []
  | [x] => x
  | x :: rest => x ++ sep ++ join sep rest
  end.

Definition json_dumps (d : frame) : str :=
  py "{" ++ join (py ", ") (map (fun kv => json_string (fst kv) ++ py ": " ++ json_string (snd kv)) d)
  ++ py "}".

(** The string yielded for one frame: [data: <json>] and a blank line. *)
Definition sse (d : frame) : str :=
  py "data: " ++ json_dumps d ++ [newline; newline].

(** ** generate_review_stream *)

(** An exception: [type(e).__name__] and [str(e)]. *)
Record exn := {
  exc_type : str;
  exc_message : str
}.

(** What [extract_text_from_result(code_review_agent(query))] comes to:
    an exception out of the agent, or the text of its answer. *)
Inductive outcome :=
| Raised (e : exn)
| Returned (full_analysis : str).

Definition build_query (code : str) : str :=
  py "Analyze this code following the exact structure with all four sections:

Code to analyze:
```
" ++ code ++ py "
```

Provide your analysis with these exact section headers:
## SECURITY ANALYSIS
## PERFORMANCE ANALYSIS
## READABILITY ANALYSIS
## COMPREHENSIVE SUMMARY".

Definition section_order : list str :=
  map py ["security"; "performance"; "readability"; "summary"].

Definition section_start (section_name : str) : frame :=
  [ (py "type", py "section_start"); (py "section", section_name) ].

Definition content_frame (section_name chunk : str) : frame :=
  [ (py "type", py "content"); (py "section", section_name); (py "content", chunk) ].

Definition section_complete (section_name : str) : frame :=
  [ (py "type", py "section_complete"); (py "section", section_name) ].

Definition complete_frame : frame := [ (py "type", py "complete") ].

Definition error_frame (error_message : str) : frame :=
  [ (py "type", py "error"); (py "message", error_message) ].

Definition no_issues : str := py "No specific issues found in this category.".

(** [s[i:j]] for [0 <= i <= j] *)
Definition slice (s : str) (i j : nat) : str := take (j - i) (drop i s).

(** The chunks of [for i in range(0, len(content), 50)]. *)
Definition chunks (content : str) : list str :=
  map (fun i => slice content i (i + 50)) (range 0 (length content) 50).

(** The frames between [section_start] and [section_complete]. *)
Definition content_frames (section_name content : str) : list frame :=
  if truthy content
  then map (content_frame section_name) (chunks content)
  else [content_frame section_name no_issues].

(** The loop over [section_order]: the frames yielded, and the exception
    that ended the loop if one was raised ([sections[section_name]] on a
    missing key). *)
Fixpoint emit_sections (sections : gmap str str) (order : list str)
    : list frame * option exn :=
  match order with
  | [] => ([], None)
  | section_name :: rest =>
      match sections !! section_name with
      | None =>
          ([section_start section_name],
           Some {| exc_type := py "KeyError";
                   exc_message := py "'" ++ section_name ++ py "'" |})
      | Some text =>
          let content := strip text in
          let '(later, e) := emit_sections sections rest in
          (section_start section_name :: content_frames section_name content
             ++ section_complete section_name :: later, e)
      end
  end.

(** The body of the [try]. *)
Definition review_body (agent : str -> outcome) (code : str)
    : list frame * option exn :=
  match agent (build_query code) with
  | Raised e => ([], Some e)
  | Returned full_analysis =>
      let sections := parse_sections full_analysis in
      match emit_sections sections section_order with
      | (fs, None) => (fs ++ [complete_frame], None)
      | (fs, Some e) => (fs, Some e)
      end
  end.

(** The frames of the stream, in order: those of the body, then the one of
    the handler if the body raised.  A frame is the dict of a [yield];
    the string yielded is [sse] of it.  [await asyncio.sleep(0.01)] after
    a chunk takes time and yields nothing. *)
Definition generate_review_stream (agent : str -> outcome) (code : str) : list frame :=
  match review_body agent code with
  | (fs, None) => fs
  | (fs, Some e) =>
      fs ++ [error_frame (exc_type e ++ py ": " ++ exc_message e)]
  end.

(** [POST /review]: the body of the response. *)
Definition review_code (agent : str -> outcome) (code : str) : list str :=
  map sse (generate_review_stream agent code).

(** ** Vocabulary of the statements *)

(** The six pattern types of the docstring. *)
Definition known_pattern_types : list str :=
  map py ["sql_injection"; "xss"; "auth"; "secrets"; "csrf"; "input_validation"].

(** The indicators of a pattern whose lowercased form occurs in the
    lowercased code, in table order. *)
Definition matching_indicators (p : pattern) (code : str) : list str :=
  List.filter (fun i => contains (lower i) (lower code)) (indicators p).

(** The frames of one section: its start, one content frame per text, its
    completion. *)
Definition section_block (section_name : str) (texts : list str) : list frame :=
  section_start section_name :: map (content_frame section_name) texts
  ++ [section_complete section_name].

(** The content strings a section is streamed as. *)
Definition section_texts (sections : gmap str str) (section_name : str) : list str :=
  match sections !! section_name with
  | Some text => if truthy (strip text) then chunks (strip text) else [no_issues]
  | None => []
  end.

(** The frame types of the interface. *)
Definition frame_types : list str :=
  map py ["section_start"; "content"; "section_complete"; "complete"; "error"].

(** The types of the frames inside a section. *)
Definition section_frame_types : list str :=
  map py ["section_start"; "content"; "section_complete"].

Definition has_type (types : list str) (f : frame) : Prop :=
  ∃ t, frame_type f = Some t ∧ t ∈ types.

(** [sub] occurs in [s]. *)
Definition substring (sub s : str) : Prop := ∃ before after, s = before ++ sub ++ after.

(** C3 as stated: every content frame of the stream carries at most 50
    characters, taken from the parsed text of the section it names. *)
Definition content_within_section (agent : str -> outcome) (code full_analysis : str) : Prop :=
  ∀ name chunk,
    content_frame name chunk ∈ generate_review_stream agent code →
    (length chunk ≤ 50)%nat
    ∧ ∃ text, parse_sections full_analysis !! name = Some text ∧ substring chunk text.

(** C3 as amended: the content of a content frame is a slice of the
    section's parsed text, or the placeholder when that text is empty. *)
Definition content_within_section_or_placeholder
    (agent : str -> outcome) (code full_analysis : str) : Prop :=
  ∀ name chunk,
    content_frame name chunk ∈ generate_review_stream agent code →
    (length chunk ≤ 50)%nat
    ∧ ∃ text, parse_sections full_analysis !! name = Some text
            ∧ (substring chunk text ∨ (text = [] ∧ chunk = no_issues)).

(** [needle] has no line break. *)
Definition one_line (needle : str) : bool :=
  forallb (fun c => negb (Ascii.eqb c newline)) needle.

(** [sum(count(sub, l) for l in lines)] *)
Definition count_in_lines (sub : str) (lines : list str) : Z :=
  fold_right Z.add 0 (map (count sub) lines).

(** [code'] is [code] with its lines in another order. *)
Definition reordered (code code' : str) : Prop :=
  Permutation (split_lines code) (split_lines code').

(** C4 as stated, for one analysis function: the result does not change
    when the lines of the input are reordered. *)
Definition line_order_invariant (f : str -> pyval) : Prop :=
  ∀ code code', reordered code code' → f code = f code'.

(** [d[key]] on a returned dict. *)
Definition dict_get (key : str) (v : pyval) : option pyval :=
  match v with
  | VDict d => snd <$> List.find (fun kv => bool_decide (fst kv = key)) d
  | _ => None
  end.

(** The fields of [calculate_complexity_metrics] that are plain counts. *)
Definition flat_complexity_fields : list str :=
  map py ["total_lines"; "database_queries"; "async_operations"; "blocking_operations"].

(** C4 as stated: each of the three analysis functions is unchanged under
    any reordering of the lines of its input. *)
Definition tools_line_order_invariant : Prop :=
  (∀ pattern_type,
     line_order_invariant (fun code => analyze_security_patterns code pattern_type))
  ∧ line_order_invariant calculate_complexity_metrics
  ∧ line_order_invariant assess_code_quality_metrics.

(** Two loops opened before either is closed, and the same lines with the
    first loop closed before the second opens. *)
Definition nested_sample : str := py "for x
for y
}
}".

Definition sequential_sample : str := py "for x
}
for y
}".

(** The characters of the header texts: A-Z and the space. *)
Definition is_header_char (c : ascii) : bool :=
  let n := ord c in
  ((65 <=? n) && (n <=? 90)) || (n =? 32).

(** The header that opens each section. *)
Definition section_headers : list (str * str) :=
  [ (py "security", py "SECURITY ANALYSIS");
    (py "performance", py "PERFORMANCE ANALYSIS");
    (py "readability", py "READABILITY ANALYSIS");
    (py "summary", py "COMPREHENSIVE SUMMARY") ].

(** The section whose header [g] spells, in any case. *)
Definition header_key (g : str) : option str :=
  fst <$> List.find (fun kh => bool_decide (lower g = lower (snd kh))) section_headers.

(** [s] starts with a marker: [##], one or more white-space characters,
    and a header [g] in any case; [rest] follows the marker. *)
Definition marker (g s rest : str) : Prop :=
  ∃ ws, s = py "##" ++ ws ++ g ++ rest
        ∧ ws ≠ [] ∧ forallb isspace ws = true ∧ is_Some (header_key g).

(** No marker starts at any of the first [n] positions of [s]. *)
Definition marker_free (n : nat) (s : str) : Prop :=
  ∀ i g rest, (i < n)%nat → ¬ marker g (drop i s) rest.

(** [layout s pre blocks]: read left to right, [s] is the text [pre], then
    for each block a marker with header [g] followed by the text [body]
    that runs up to the next marker or the end of [s]. *)
Inductive layout : str → str → list (str * str) → Prop :=
| layout_end s :
    marker_free (S (length s)) s → layout s s []
| layout_block pre m g rest body blocks :
    marker_free (length pre) (pre ++ m) →
    marker g m rest →
    layout rest body blocks →
    layout (pre ++ m) pre ((g, body) :: blocks).

(** The stripped text of the last block whose header opens section [key];
    the empty string when there is none. *)
Definition last_text (key : str) (blocks : list (str * str)) : str :=
  fold_left
    (fun acc gb => if decide (header_key (fst gb) = Some key) then strip (snd gb) else acc)
    blocks [].


(** The groups and texts of a split, two by two. *)
Fixpoint pairs (l : list str) : list (str * str) :=
  match l with
  | g :: t :: rest => (g, t) :: pairs rest
  | _ => []
  end.

(** The first character of an alternative, case folded. *)
Definition folded_head (h : str) : option ascii := lower_char <$> head h.

(** ** Import-time set-up of the environment

    The three assignments to [os.environ] that follow [load_dotenv()];
    the state taken is the environment as [load_dotenv()] left it. *)

(** What [os.environ[key] = None] raises. *)
Definition none_refused : exn :=
  {| exc_type := py "TypeError"; exc_message := py "str expected, not NoneType" |}.

(** [os.environ[key] = value], [value] being the result of an
    [os.getenv]: [None] when the variable is not set. *)
Definition setenv (key : str) (value : option str) (env : gmap str str)
    : exn + gmap str str :=
  match value with
  | Some v => inr (<[key := v]> env)
  | None => inl none_refused
  end.

Definition startup (g : globals) : exn + globals :=
  match setenv (py "AWS_ACCESS_KEY_ID") (environ g !! py "AWS_ACCESS_KEY_ID") (environ g) with
  | inl e => inl e
  | inr env1 =>
      match setenv (py "AWS_SECRET_ACCESS_KEY") (env1 !! py "AWS_SECRET_ACCESS_KEY") env1 with
      | inl e => inl e
      | inr env2 =>
          match setenv (py "AWS_DEFAULT_REGION")
                  (Some (match env2 !! py "AWS_REGION" with
                         | Some v => v
                         | None => py "us-east-1"
                         end)) env2 with
          | inl e => inl e
          | inr env3 => inr {| environ := env3 |}
          end
      end
  end.

(** ** extract_text_from_result

    The objects the function tells apart: a [str], a [dict] with string
    keys, a [list], an instance with attributes (the agent's result
    object), anything else. *)

Inductive pyobj :=
| OStr (s : str)
| ODict (items : list (str * pyobj))
| OList (elems : list pyobj)
| OInst (attrs : list (str * pyobj))
| OOther.

(** [d[key]] when [key in d]. *)
Definition obj_get (key : str) (items : list (str * pyobj)) : option pyobj :=
  snd <$> List.find (fun kv => bool_decide (fst kv = key)) items.

(** [getattr(x, name)] when [hasattr(x, name)], for the two attribute
    names the function asks for; only an instance carries them. *)
Definition getattr (x : pyobj) (name : str) : option pyobj :=
  match x with
  | OInst attrs => obj_get name attrs
  | _ => None
  end.

(** [str(x)]: a [str] is returned as it is, [repr] gives the text of any
    other object. *)
Definition str_of (repr : pyobj -> str) (x : pyobj) : str :=
  match x with
  | OStr s => s
  | _ => repr x
  end.

(** The block [if hasattr(result, 'last_message')]: what it returns, if
    it returns. *)
Definition from_last_message (repr : pyobj -> str) (result : pyobj) : option pyobj :=
  match getattr result (py "last_message") with
  | Some (OStr s) => Some (OStr s)
  | Some (ODict d) =>
      match obj_get (py "content") d with
      | Some content =>
          match content with
          | OList (ODict first :: _) =>
              match obj_get (py "text") first with
              | Some t => Some t
              | None => Some (OStr (str_of repr content))
              end
          | _ => Some (OStr (str_of repr content))
          end
      | None =>
          match obj_get (py "text") d with
          | Some t => Some (OStr (str_of repr t))
          | None => None
          end
      end
  | Some (OList (ODict first :: _)) => obj_get (py "text") first
  | _ => None
  end.

(** The block [if hasattr(result, 'message')]. *)
Definition from_message (repr : pyobj -> str) (result : pyobj) : option pyobj :=
  match getattr result (py "message") with
  | Some (OStr s) => Some (OStr s)
  | Some (ODict d) =>
      match obj_get (py "content") d with
      | Some content => Some (OStr (str_of repr content))
      | None =>
          match obj_get (py "text") d with
          | Some t => Some (OStr (str_of repr t))
          | None => None
          end
      end
  | _ => None
  end.

(** The block [if isinstance(result, dict)]. *)
Definition from_dict (repr : pyobj -> str) (result : pyobj) : option pyobj :=
  match result with
  | ODict d =>
      match obj_get (py "last_message") d with
      | Some v => Some (OStr (str_of repr v))
      | None =>
      match obj_get (py "message") d with
      | Some v => Some (OStr (str_of repr v))
      | None =>
      match obj_get (py "content") d with
      | Some v => Some (OStr (str_of repr v))
      | None =>
      match obj_get (py "text") d with
      | Some v => Some (OStr (str_of repr v))
      | None => None
      end end end end
  | _ => None
  end.

Definition extract_text_from_result (repr : pyobj -> str) (result : pyobj) : pyobj :=
  match result with
  | OStr s => OStr s
  | _ =>
      match from_last_message repr result with
      | Some r => r
      | None =>
          match from_message repr result with
          | Some r => r
          | None =>
              match from_dict repr result with
              | Some r => r
              | None => OStr (str_of repr result)
              end
          end
      end
  end.

(** The agent as [generate_review_stream] meets it: the model call may
    raise; its result goes through [extract_text_from_result], and
    [parse_sections] turns what is not a [str] into one with [str]. *)
Definition run_agent (repr : pyobj -> str) (model : str -> exn + pyobj)
    (query : str) : outcome :=
  match model query with
  | inl e => Raised e
  | inr result => Returned (str_of repr (extract_text_from_result repr result))
  end.

(** ** More vocabulary *)

(** The answer the system prompt asks for: the four headers in order,
    each followed by its text. *)
Definition render_response (security performance readability summary : str) : str :=
  py "## SECURITY ANALYSIS" ++ security
  ++ py "## PERFORMANCE ANALYSIS" ++ performance
  ++ py "## READABILITY ANALYSIS" ++ readability
  ++ py "## COMPREHENSIVE SUMMARY" ++ summary.

Definition hash : ascii := "#"%char.

(** The characters that leave [json.dumps] unescaped: space to tilde. *)
Definition printable (c : ascii) : bool :=
  (32 <=? ord c) && (ord c <=? 126).

(** The stream when every section is empty. *)
Definition placeholder_stream : list frame :=
  flat_map (fun name => section_block name [no_issues]) section_order
  ++ [complete_frame].

(** The keywords [calculate_complexity_metrics] looks for. *)
Definition complexity_keywords : list str :=
  map py ["for "; "while "; "foreach"; "query"; "select"; "find(";
          "sleep"; "thread."; "lock"].

(** [math.ceil(n / 50)] on naturals. *)
Definition ceil50 (n : nat) : nat := Nat.div (n + 49) 50.

(** The content a frame carries for section [name]: its [content] field,
    when its [type] is ['content'] and its [section] is [name]. *)
Definition content_of (name : str) (f : frame) : option str :=
  if bool_decide (frame_type f = Some (py "content"))
     && bool_decide (field (py "section") f = Some name)
  then field (py "content") f
  else None.

(** The content fields of all the content frames of section [name] in a
    stream, in emission order. *)
Definition section_contents (name : str) (fs : list frame) : list str :=
  omap (content_of name) fs.

(** The fields of [calculate_complexity_metrics] that follow the nesting
    level. *)
Definition nesting_complexity_fields : list str :=
  map py ["nested_loops"; "max_nesting_level"; "complexity_score";
          "complexity_level"; "performance_impact"].

(** Three loops opened one inside the other, and the same lines with each
    loop closed before the next opens. *)
Definition deep_nested_sample : str := py "for a
for b
for c
}
}
}".

Definition deep_sequential_sample : str := py "for a
}
for b
}
for c
}".

(** * Properties *)

(** ** analyze_security_patterns *)

Lemma scan_indicators_filter p code inds acc :
  scan_indicators p code inds acc =
  acc ++ map (finding p) (List.filter (fun i => contains (lower i) (lower code)) inds).
Proof.
  revert acc. induction inds as [|i inds IH]; intros acc; simpl.
  - by rewrite app_nil_r.
  - destruct (contains (lower i) (lower code)); rewrite IH; [|done].
    by rewrite <- app_assoc.
Qed.

Lemma known_pattern_lookup pt :
  pt ∈ known_pattern_types → ∃ p, patterns !! pt = Some p ∧ NoDup (indicators p).
Proof.
  unfold known_pattern_types. cbn [map]. intros H.
  repeat (apply elem_of_cons in H as [-> | H]);
    [ eexists; split; [vm_compute; reflexivity | apply (bool_decide_unpack _); vm_compute; exact I] .. | ].
  by apply elem_of_nil in H.
Qed.

Lemma unknown_pattern_lookup pt :
  pt ∉ known_pattern_types → patterns !! pt = None.
Proof.
  intros H. unfold patterns.
  apply not_elem_of_list_to_map_1. exact H.
Qed.

(** C5: for a known pattern type the result has one finding per indicator
    of the pattern's table (which lists no indicator twice) whose lowercased
    form occurs in the lowercased code, in table order; [total_findings] is
    their number; [severity] is the pattern's severity when there is a
    finding and ['None'] when there is none. *)
Theorem security_findings_per_indicator (code pattern_type : str) :
  pattern_type ∈ known_pattern_types →
  ∃ p, patterns !! pattern_type = Some p
     ∧ NoDup (indicators p)
     ∧ analyze_security_patterns code pattern_type =
       VDict [ (py "pattern_type", VStr pattern_type);
               (py "findings", VList (map (finding p) (matching_indicators p code)));
               (py "total_findings", VInt (len (matching_indicators p code)));
               (py "severity",
                VStr (if decide (matching_indicators p code = [])
                      then py "None" else severity p)) ].
Proof.
  intros Hk. destruct (known_pattern_lookup _ Hk) as (p & Hp & Hnd).
  exists p. split; [done|]. split; [done|].
  unfold analyze_security_patterns. rewrite Hp. cbn zeta.
  rewrite scan_indicators_filter. cbn [app].
  fold (matching_indicators p code).
  unfold len. rewrite length_map.
  destruct (matching_indicators p code) as [|i l]; reflexivity.
Qed.

Lemma security_findings_per_indicator_witness :
  ∃ p, patterns !! py "xss" = Some p
     ∧ NoDup (indicators p)
     ∧ analyze_security_patterns (py "el.innerHTML = EVAL(x)") (py "xss") =
       VDict [ (py "pattern_type", VStr (py "xss"));
               (py "findings",
                VList (map (finding p) (matching_indicators p (py "el.innerHTML = EVAL(x)"))));
               (py "total_findings",
                VInt (len (matching_indicators p (py "el.innerHTML = EVAL(x)"))));
               (py "severity",
                VStr (if decide (matching_indicators p (py "el.innerHTML = EVAL(x)") = [])
                      then py "None" else severity p)) ].
Proof.
  apply (security_findings_per_indicator (py "el.innerHTML = EVAL(x)") (py "xss")).
  apply (bool_decide_unpack _). vm_compute. exact I.
Defined.

(** C10: for a pattern type outside the six known ones the result is a
    dict whose only key is ['error'], naming the unknown type. *)
Theorem security_unknown_pattern_type (code pattern_type : str) :
  pattern_type ∉ known_pattern_types →
  analyze_security_patterns code pattern_type =
    VDict [ (py "error", VStr (py "Unknown pattern type: " ++ pattern_type)) ]
  ∧ keys (analyze_security_patterns code pattern_type) = [py "error"].
Proof.
  intros Hk. unfold analyze_security_patterns.
  rewrite (unknown_pattern_lookup _ Hk). split; reflexivity.
Qed.

Lemma security_unknown_pattern_type_witness :
  analyze_security_patterns (py "SELECT 1") (py "buffer_overflow") =
    VDict [ (py "error", VStr (py "Unknown pattern type: " ++ py "buffer_overflow")) ]
  ∧ keys (analyze_security_patterns (py "SELECT 1") (py "buffer_overflow")) = [py "error"].
Proof.
  apply (security_unknown_pattern_type (py "SELECT 1") (py "buffer_overflow")).
  apply (bool_decide_unpack _). vm_compute. exact I.
Defined.

(** ** parse_sections: the keys *)

Lemma dom_empty_sections : dom empty_sections = list_to_set section_order.
Proof. unfold empty_sections. rewrite dom_list_to_map_L. reflexivity. Qed.

Lemma parse_step_dom parts sections i :
  dom sections = dom empty_sections →
  dom (parse_step parts sections i) = dom empty_sections.
Proof.
  intros Hd. unfold parse_step.
  repeat case_match; try done;
    rewrite dom_insert_L, Hd, dom_empty_sections;
    unfold section_order; cbn [map list_to_set]; set_solver.
Qed.

Lemma parse_fold_dom parts idx sections :
  dom sections = dom empty_sections →
  dom (fold_left (parse_step parts) idx sections) = dom empty_sections.
Proof.
  revert sections. induction idx as [|i idx IH]; intros sections Hd; simpl; [done|].
  apply IH. by apply parse_step_dom.
Qed.

Lemma parse_sections_dom full_response :
  dom (parse_sections full_response) = list_to_set section_order.
Proof.
  unfold parse_sections. cbn zeta. rewrite parse_fold_dom; [|done].
  apply dom_empty_sections.
Qed.

Lemma parse_sections_lookup full_response name :
  name ∈ section_order → is_Some (parse_sections full_response !! name).
Proof.
  intros Hin. apply elem_of_dom. rewrite parse_sections_dom.
  by apply elem_of_list_to_set.
Qed.

(** ** The stream *)

Lemma content_frames_texts sections name text :
  sections !! name = Some text →
  content_frames name (strip text) = map (content_frame name) (section_texts sections name).
Proof.
  intros H. unfold content_frames, section_texts. rewrite H.
  by destruct (truthy (strip text)).
Qed.

Lemma emit_sections_blocks sections order :
  (∀ name, name ∈ order → is_Some (sections !! name)) →
  emit_sections sections order =
  (flat_map (fun name => section_block name (section_texts sections name)) order, None).
Proof.
  induction order as [|name order IH]; intros Hk; simpl; [done|].
  destruct (Hk name) as [text Ht]; [by left|].
  rewrite Ht, IH by (intros; apply Hk; by right).
  rewrite (content_frames_texts _ _ _ Ht).
  unfold section_block. cbn [app]. by rewrite <- app_assoc.
Qed.

Lemma stream_returned agent code full_analysis :
  agent (build_query code) = Returned full_analysis →
  generate_review_stream agent code =
  flat_map (fun name => section_block name (section_texts (parse_sections full_analysis) name))
    section_order ++ [complete_frame].
Proof.
  intros H. unfold generate_review_stream, review_body. rewrite H. cbn zeta.
  rewrite emit_sections_blocks; [done|].
  intros name. apply parse_sections_lookup.
Qed.

Lemma body_raises agent code fs e :
  review_body agent code = (fs, Some e) →
  fs = [] ∧ agent (build_query code) = Raised e.
Proof.
  unfold review_body. destruct (agent (build_query code)) as [e'|full].
  - intros [= <- <-]. done.
  - cbn zeta. rewrite emit_sections_blocks; [done|].
    intros name. apply parse_sections_lookup.
Qed.

(** ** Slicing at stride 50 *)

Lemma chunks_unfold (s : str) :
  chunks s = map (fun k => take 50 (drop (k * 50) s)) (seq 0 ((length s + 49) `div` 50)%nat).
Proof.
  unfold chunks, range, slice. rewrite map_map.
  replace (length s - 0 + (50 - 1))%nat with (length s + 49)%nat by lia.
  apply map_ext. intros k. cbn [Nat.add].
  by replace (k * 50 + 50 - k * 50)%nat with 50%nat by lia.
Qed.

Lemma strided_prefix (s : str) n :
  concat (map (fun k => take 50 (drop (k * 50) s)) (seq 0 n)) = take (n * 50) s.
Proof.
  induction n as [|n IH].
  - by rewrite take_0.
  - rewrite seq_S, map_app, concat_app, IH. cbn [map concat Nat.add].
    rewrite app_nil_r, take_take_drop. f_equal. lia.
Qed.

Lemma chunks_concat (s : str) : concat (chunks s) = s.
Proof.
  rewrite chunks_unfold, strided_prefix. apply take_ge.
  pose proof (Nat.div_mod_eq (length s + 49) 50) as Hd.
  pose proof (Nat.mod_upper_bound (length s + 49) 50) as Hm. lia.
Qed.

Lemma chunks_lookup (s : str) k c :
  chunks s !! k = Some c →
  c = take 50 (drop (k * 50) s) ∧ (k * 50 < length s)%nat.
Proof.
  rewrite chunks_unfold, list_lookup_fmap.
  destruct (seq 0 _ !! k) as [j|] eqn:Hj; [|done].
  apply lookup_seq in Hj as [-> Hlt]. cbn. intros [= <-]. split; [done|].
  pose proof (Nat.div_mod_eq (length s + 49) 50) as Hd.
  pose proof (Nat.mod_upper_bound (length s + 49) 50) as Hm. lia.
Qed.

Lemma chunks_nonempty (s : str) : s ≠ [] → chunks s ≠ [].
Proof.
  intros Hs Hc. apply Hs. by rewrite <- (chunks_concat s), Hc.
Qed.

Lemma chunk_bounds (s : str) c :
  c ∈ chunks s → (0 < length c ≤ 50)%nat ∧ substring c s.
Proof.
  intros Hin. apply list_elem_of_lookup in Hin as [k Hk].
  apply chunks_lookup in Hk as [-> Hlt]. split.
  - rewrite length_take, length_drop. lia.
  - exists (take (k * 50) s), (drop 50 (drop (k * 50) s)).
    by rewrite !take_drop.
Qed.

(** ** strip *)

Lemma lstrip_suffix (s : str) : ∃ ws, s = ws ++ lstrip s ∧ forallb isspace ws = true.
Proof.
  induction s as [|c s (ws & IH & Hws)]; [by exists []|]. simpl.
  destruct (isspace c) eqn:Hc.
  - exists (c :: ws). simpl. rewrite Hc, Hws. split; [by f_equal|done].
  - by exists [].
Qed.

Lemma lstrip_idem (s : str) : lstrip (lstrip s) = lstrip s.
Proof.
  induction s as [|c s IH]; [done|]. simpl.
  destruct (isspace c) eqn:Hc; [done|]. simpl. by rewrite Hc.
Qed.

Lemma lstrip_app_nonspace (l : str) c t :
  isspace c = false → lstrip (l ++ c :: t) = lstrip l ++ c :: t.
Proof.
  intros Hc. induction l as [|a l IH]; simpl.
  - by rewrite Hc.
  - by destruct (isspace a).
Qed.

Lemma lstrip_fixed_head (c : ascii) (s : str) :
  lstrip (c :: s) = c :: s → isspace c = false.
Proof.
  simpl. destruct (isspace c); [|done]. intros H.
  destruct (lstrip_suffix s) as (ws & Hs & _).
  apply (f_equal length) in H. apply (f_equal length) in Hs.
  rewrite length_app in Hs. simpl in H. lia.
Qed.

Lemma rstrip_prefix (s : str) : ∃ ws, s = rstrip s ++ ws.
Proof.
  unfold rstrip. destruct (lstrip_suffix (rev s)) as (ws & H & _).
  exists (rev ws). rewrite <- rev_app_distr, <- H. by rewrite rev_involutive.
Qed.

Lemma rstrip_idem (s : str) : rstrip (rstrip s) = rstrip s.
Proof. unfold rstrip. by rewrite rev_involutive, lstrip_idem. Qed.

Lemma rstrip_keeps_start (s : str) : lstrip s = s → lstrip (rstrip s) = rstrip s.
Proof.
  destruct s as [|c s]; [done|]. intros H.
  pose proof (lstrip_fixed_head _ _ H) as Hc.
  unfold rstrip. cbn [rev]. rewrite lstrip_app_nonspace by done.
  rewrite rev_app_distr. simpl. by rewrite Hc.
Qed.

Lemma strip_idem (s : str) : strip (strip s) = strip s.
Proof.
  unfold strip. rewrite (rstrip_keeps_start (lstrip s)) by apply lstrip_idem.
  apply rstrip_idem.
Qed.

Lemma strip_substring (s : str) : substring (strip s) s.
Proof.
  unfold strip. destruct (lstrip_suffix s) as (l & Hl & _).
  destruct (rstrip_prefix (lstrip s)) as (r & Hr).
  exists l, r. by rewrite <- Hr.
Qed.

Lemma substring_trans (a b c : str) : substring a b → substring b c → substring a c.
Proof.
  intros (p1 & q1 & ->) (p2 & q2 & ->).
  exists (p2 ++ p1), (q1 ++ q2). by rewrite <- !app_assoc.
Qed.

(** Every text stored by [parse_sections] is already stripped. *)
Lemma parse_step_stripped parts sections i :
  (∀ k t, sections !! k = Some t → strip t = t) →
  ∀ k t, parse_step parts sections i !! k = Some t → strip t = t.
Proof.
  intros Hs k t. unfold parse_step.
  repeat case_match; try apply Hs;
    (rewrite lookup_insert; case_decide; [intros [= <-]; apply strip_idem | apply Hs]).
Qed.

Lemma parse_sections_stripped full_response k t :
  parse_sections full_response !! k = Some t → strip t = t.
Proof.
  unfold parse_sections. cbn zeta.
  generalize (range 1 (length (re_split full_response)) 2).
  assert (∀ k t, empty_sections !! k = Some t → strip t = t) as H0.
  { intros k' t' H. unfold empty_sections in H.
    apply elem_of_list_to_map_2 in H.
    repeat (apply elem_of_cons in H as [[= _ ->] | H]); try done.
    by apply elem_of_nil in H. }
  revert k t. generalize dependent empty_sections.
  intros m Hm k t idx. revert m Hm k t.
  induction idx as [|i idx IH]; intros m Hm k t; simpl; [apply Hm|].
  apply IH. by apply parse_step_stripped.
Qed.

(** ** The frames of a successful review *)

Lemma section_block_types name texts :
  Forall (has_type section_frame_types) (section_block name texts).
Proof.
  unfold section_block. apply Forall_cons. split.
  { exists (py "section_start"). split; [reflexivity|].
    apply (bool_decide_unpack _). vm_compute. exact I. }
  apply Forall_app. split.
  - apply Forall_forall. intros f Hf. apply list_elem_of_fmap in Hf as (c & -> & _).
    exists (py "content"). split; [reflexivity|].
    apply (bool_decide_unpack _). vm_compute. exact I.
  - apply Forall_cons. split; [|constructor].
    exists (py "section_complete"). split; [reflexivity|].
    apply (bool_decide_unpack _). vm_compute. exact I.
Qed.

Lemma section_types_not_complete f :
  has_type section_frame_types f → frame_type f ≠ Some (py "complete").
Proof.
  intros (t & Ht & Hin) Hc. rewrite Ht in Hc. injection Hc as ->.
  revert Hin. apply (bool_decide_unpack _). vm_compute. exact I.
Qed.

Lemma section_types_in_frame_types f :
  has_type section_frame_types f → has_type frame_types f.
Proof.
  intros (t & Ht & Hin). exists t. split; [done|].
  unfold section_frame_types, frame_types in *. cbn [map] in *.
  repeat (apply elem_of_cons in Hin as [-> | Hin]);
    [apply (bool_decide_unpack _); vm_compute; exact I .. |].
  by apply elem_of_nil in Hin.
Qed.

Lemma section_texts_nonempty full_analysis name :
  name ∈ section_order → section_texts (parse_sections full_analysis) name ≠ [].
Proof.
  intros Hin. unfold section_texts.
  destruct (parse_sections_lookup full_analysis name Hin) as [text ->].
  destruct (strip text) as [|c s] eqn:Hs; simpl; [done|].
  by apply chunks_nonempty.
Qed.

(** C1: when the agent returns, the stream is the four sections in the
    order security, performance, readability, summary, each as one
    [section_start] frame, at least one [content] frame and one
    [section_complete] frame, followed by a single [complete] frame that
    ends the stream; every frame type is one of the five of the interface. *)
Theorem stream_order_on_success (agent : str -> outcome) (code full_analysis : str) :
  agent (build_query code) = Returned full_analysis →
  ∃ c1 c2 c3 c4 : list str,
    c1 ≠ [] ∧ c2 ≠ [] ∧ c3 ≠ [] ∧ c4 ≠ []
    ∧ generate_review_stream agent code =
        section_block (py "security") c1 ++ section_block (py "performance") c2
        ++ section_block (py "readability") c3 ++ section_block (py "summary") c4
        ++ [complete_frame]
    ∧ Forall (has_type frame_types) (generate_review_stream agent code)
    ∧ ∀ i f, generate_review_stream agent code !! i = Some f →
             frame_type f = Some (py "complete") →
             S i = length (generate_review_stream agent code).
Proof.
  intros H. pose proof (stream_returned _ _ _ H) as Hs.
  set (sections := parse_sections full_analysis) in *.
  exists (section_texts sections (py "security")),
         (section_texts sections (py "performance")),
         (section_texts sections (py "readability")),
         (section_texts sections (py "summary")).
  assert (∀ n, n ∈ section_order → section_texts sections n ≠ []) as Hne
    by (intros; by apply section_texts_nonempty).
  assert (∀ s : string, bool_decide (py s ∈ section_order) = true → py s ∈ section_order)
    as Hin by (intros s Hb; by apply bool_decide_eq_true in Hb).
  repeat (split; [apply Hne, Hin; vm_compute; reflexivity|]).
  assert (generate_review_stream agent code =
          (section_block (py "security") (section_texts sections (py "security"))
           ++ section_block (py "performance") (section_texts sections (py "performance"))
           ++ section_block (py "readability") (section_texts sections (py "readability"))
           ++ section_block (py "summary") (section_texts sections (py "summary")))
          ++ [complete_frame]) as Hs'.
  { rewrite Hs. unfold section_order. cbn [map flat_map].
    by rewrite app_nil_r, <- !app_assoc. }
  assert (Forall (has_type section_frame_types)
            (section_block (py "security") (section_texts sections (py "security"))
             ++ section_block (py "performance") (section_texts sections (py "performance"))
             ++ section_block (py "readability") (section_texts sections (py "readability"))
             ++ section_block (py "summary") (section_texts sections (py "summary")))) as Hty.
  { repeat (apply Forall_app; split); apply section_block_types. }
  split; [by rewrite Hs', <- !app_assoc|].
  rewrite Hs'. split.
  - apply Forall_app. split.
    + eapply Forall_impl; [exact Hty|]. apply section_types_in_frame_types.
    + apply Forall_cons. split; [|constructor].
      exists (py "complete"). split; [reflexivity|].
      apply (bool_decide_unpack _). vm_compute. exact I.
  - intros i f Hi Hc. rewrite length_app. cbn [length].
    destruct (decide (i < length (section_block (py "security") (section_texts sections (py "security"))
             ++ section_block (py "performance") (section_texts sections (py "performance"))
             ++ section_block (py "readability") (section_texts sections (py "readability"))
             ++ section_block (py "summary") (section_texts sections (py "summary"))))%nat)
      as [Hlt|Hge].
    + rewrite lookup_app_l in Hi by done.
      rewrite Forall_forall in Hty.
      exfalso. eapply section_types_not_complete; [|exact Hc].
      apply Hty. eapply list_elem_of_lookup_2. exact Hi.
    + apply lookup_lt_Some in Hi. rewrite length_app in Hi. cbn [length] in Hi. lia.
Qed.

Lemma stream_order_on_success_witness :
  ∃ c1 c2 c3 c4 : list str,
    c1 ≠ [] ∧ c2 ≠ [] ∧ c3 ≠ [] ∧ c4 ≠ []
    ∧ generate_review_stream (fun _ => Returned (py "## SECURITY ANALYSIS
fine")) (py "x = 1") =
        section_block (py "security") c1 ++ section_block (py "performance") c2
        ++ section_block (py "readability") c3 ++ section_block (py "summary") c4
        ++ [complete_frame]
    ∧ Forall (has_type frame_types)
        (generate_review_stream (fun _ => Returned (py "## SECURITY ANALYSIS
fine")) (py "x = 1"))
    ∧ ∀ i f, generate_review_stream (fun _ => Returned (py "## SECURITY ANALYSIS
fine")) (py "x = 1") !! i = Some f →
             frame_type f = Some (py "complete") →
             S i = length (generate_review_stream (fun _ => Returned (py "## SECURITY ANALYSIS
fine")) (py "x = 1")).
Proof.
  apply (stream_order_on_success (fun _ => Returned (py "## SECURITY ANALYSIS
fine")) (py "x = 1") (py "## SECURITY ANALYSIS
fine")).
  reflexivity.
Defined.

(** C2: when an exception is raised in the body of the [try], the stream
    is one [error] frame whose message is the exception's type name, a
    colon and a space, and its message; no [complete] frame is emitted. *)
Theorem stream_on_exception (agent : str -> outcome) (code : str)
    (fs : list frame) (e : exn) :
  review_body agent code = (fs, Some e) →
  generate_review_stream agent code =
    [error_frame (exc_type e ++ py ": " ++ exc_message e)]
  ∧ frame_type (error_frame (exc_type e ++ py ": " ++ exc_message e)) = Some (py "error")
  ∧ field (py "message") (error_frame (exc_type e ++ py ": " ++ exc_message e))
    = Some (exc_type e ++ py ": " ++ exc_message e)
  ∧ Forall (fun f => frame_type f ≠ Some (py "complete"))
      (generate_review_stream agent code).
Proof.
  intros H. destruct (body_raises _ _ _ _ H) as [-> _].
  unfold generate_review_stream. rewrite H. cbn [app].
  repeat split.
  apply Forall_cons. split; [|constructor]. intros [=].
Qed.

Lemma stream_on_exception_witness :
  generate_review_stream
    (fun _ => Raised {| exc_type := py "ValueError"; exc_message := py "boom" |}) (py "x = 1") =
    [error_frame (py "ValueError" ++ py ": " ++ py "boom")]
  ∧ frame_type (error_frame (py "ValueError" ++ py ": " ++ py "boom")) = Some (py "error")
  ∧ field (py "message") (error_frame (py "ValueError" ++ py ": " ++ py "boom"))
    = Some (py "ValueError" ++ py ": " ++ py "boom")
  ∧ Forall (fun f => frame_type f ≠ Some (py "complete"))
      (generate_review_stream
         (fun _ => Raised {| exc_type := py "ValueError"; exc_message := py "boom" |})
         (py "x = 1")).
Proof.
  apply (stream_on_exception
           (fun _ => Raised {| exc_type := py "ValueError"; exc_message := py "boom" |})
           (py "x = 1") [] {| exc_type := py "ValueError"; exc_message := py "boom" |}).
  reflexivity.
Defined.

Lemma stream_block_split agent code full_analysis name :
  agent (build_query code) = Returned full_analysis →
  name ∈ section_order →
  ∃ before after,
    generate_review_stream agent code =
    before ++ section_block name (section_texts (parse_sections full_analysis) name) ++ after.
Proof.
  intros H Hin. rewrite (stream_returned _ _ _ H).
  apply list_elem_of_split in Hin as (l1 & l2 & ->).
  rewrite flat_map_app. cbn [flat_map].
  set (block := fun n => section_block n (section_texts (parse_sections full_analysis) n)).
  exists (flat_map block l1), (flat_map block l2 ++ [complete_frame]).
  by rewrite <- !app_assoc.
Qed.

Lemma stream_content_frame agent code full_analysis name chunk :
  agent (build_query code) = Returned full_analysis →
  content_frame name chunk ∈ generate_review_stream agent code →
  name ∈ section_order ∧ chunk ∈ section_texts (parse_sections full_analysis) name.
Proof.
  intros H. rewrite (stream_returned _ _ _ H).
  rewrite elem_of_app. intros [Hin | Hin].
  - apply list_elem_of_In, in_flat_map in Hin as (n & Hn & Hin).
    apply list_elem_of_In in Hn, Hin. unfold section_block in Hin.
    apply elem_of_cons in Hin as [Heq | Hin]; [discriminate Heq|].
    apply elem_of_app in Hin as [Hin | Hin].
    + apply list_elem_of_fmap in Hin as (c & Heq & Hc).
      injection Heq as -> ->. done.
    + apply elem_of_cons in Hin as [Heq | Hin]; [discriminate Heq|].
      by apply elem_of_nil in Hin.
  - apply elem_of_cons in Hin as [Heq | Hin]; [discriminate Heq|].
    by apply elem_of_nil in Hin.
Qed.

(** C3, the claim as stated, fails: with an empty answer the security
    section is streamed as the placeholder, which is no part of the
    (empty) parsed text. *)
Lemma content_within_section_fails :
  ¬ content_within_section (fun _ => Returned []) [] [].
Proof.
  intros Hc.
  destruct (Hc (py "security") no_issues) as (_ & text & Ht & (b & a & Hsub)).
  { apply (bool_decide_unpack _). vm_compute. exact I. }
  vm_compute in Ht. injection Ht as <-.
  destruct b; discriminate Hsub.
Qed.

(** C3, amended: every content frame carries at most 50 characters; its
    content is a substring of the parsed text of the section it names or,
    when that text is empty, the fixed placeholder. *)
Theorem content_frames_bounded (agent : str -> outcome) (code full_analysis : str) :
  agent (build_query code) = Returned full_analysis →
  content_within_section_or_placeholder agent code full_analysis.
Proof.
  intros H name chunk Hin.
  destruct (stream_content_frame _ _ _ _ _ H Hin) as [Hn Hc].
  unfold section_texts in Hc.
  destruct (parse_sections_lookup full_analysis name Hn) as [text Ht].
  rewrite Ht in Hc. rewrite (parse_sections_stripped _ _ _ Ht) in Hc.
  destruct text as [|c0 text]; cbn [truthy] in Hc.
  - apply list_elem_of_singleton in Hc as ->. split; [vm_compute; lia|].
    exists []. split; [done|]. by right.
  - apply chunk_bounds in Hc as [[_ Hlen] Hsub]. split; [done|].
    exists (c0 :: text). split; [done|]. by left.
Qed.

Lemma content_frames_bounded_witness :
  content_within_section_or_placeholder
    (fun _ => Returned (py "## PERFORMANCE ANALYSIS quick")) (py "x = 1")
    (py "## PERFORMANCE ANALYSIS quick").
Proof.
  apply (content_frames_bounded
           (fun _ => Returned (py "## PERFORMANCE ANALYSIS quick")) (py "x = 1")
           (py "## PERFORMANCE ANALYSIS quick")).
  reflexivity.
Defined.

(** ** Reading the content frames back from the stream *)

Lemma content_of_section_start name n : content_of name (section_start n) = None.
Proof. reflexivity. Qed.

Lemma content_of_section_complete name n : content_of name (section_complete n) = None.
Proof. reflexivity. Qed.

Lemma content_of_content name n c :
  content_of name (content_frame n c) = if decide (n = name) then Some c else None.
Proof.
  unfold content_of.
  change (frame_type (content_frame n c)) with (Some (py "content")).
  change (field (py "section") (content_frame n c)) with (Some n).
  change (field (py "content") (content_frame n c)) with (Some c).
  rewrite bool_decide_eq_true_2 by done. cbn [andb].
  destruct (decide (n = name)) as [->|Hne].
  - by rewrite bool_decide_eq_true_2.
  - rewrite bool_decide_eq_false_2; [done|]. intros [=]. done.
Qed.

Lemma section_contents_block name n (texts : list str) :
  section_contents name (section_block n texts) = if decide (n = name) then texts else [].
Proof.
  unfold section_contents, section_block. cbn [omap list_omap].
  rewrite content_of_section_start, omap_app. cbn [omap list_omap].
  rewrite content_of_section_complete, app_nil_r.
  induction texts as [|c texts IH]; [by destruct (decide (n = name))|].
  cbn [map omap list_omap]. rewrite content_of_content, IH.
  by destruct (decide (n = name)).
Qed.

Lemma section_contents_blocks name (order : list str) (texts : str → list str) :
  NoDup order →
  section_contents name (flat_map (fun n => section_block n (texts n)) order) =
  if decide (name ∈ order) then texts name else [].
Proof.
  induction 1 as [|n order Hn _ IH].
  { cbn. destruct (decide (name ∈ [])) as [Hin|]; [|done]. by apply elem_of_nil in Hin. }
  cbn [flat_map]. unfold section_contents in *. rewrite omap_app.
  fold (section_contents name (section_block n (texts n))).
  rewrite section_contents_block, IH.
  destruct (decide (n = name)) as [->|Hne].
  - rewrite (decide_True (P := name ∈ name :: order)) by (by left).
    rewrite decide_False by done. apply app_nil_r.
  - destruct (decide (name ∈ order)) as [Hin|Hout].
    + by rewrite (decide_True (P := name ∈ n :: order)) by (by right).
    + rewrite decide_False; [done|]. intros Hin.
      apply elem_of_cons in Hin as [->|Hin]; done.
Qed.

Lemma section_contents_stream agent code full_analysis name :
  agent (build_query code) = Returned full_analysis →
  name ∈ section_order →
  section_contents name (generate_review_stream agent code) =
  section_texts (parse_sections full_analysis) name.
Proof.
  intros H Hn. rewrite (stream_returned _ _ _ H).
  unfold section_contents. rewrite omap_app.
  change (omap (content_of name) [complete_frame]) with (@nil str).
  rewrite app_nil_r.
  fold (section_contents name
          (flat_map (fun n => section_block n (section_texts (parse_sections full_analysis) n))
             section_order)).
  rewrite (section_contents_blocks name section_order
             (section_texts (parse_sections full_analysis))).
  - by rewrite decide_True.
  - apply (bool_decide_unpack _). vm_compute. exact I.
Qed.

(** C6: for a section whose parsed text is not empty, the content fields
    of all the content frames the stream carries for that section, read
    in emission order, are the consecutive slices of the stripped text at
    stride 50; concatenated they are exactly the stripped text; and these
    frames stand together between the section's [section_start] and
    [section_complete]. *)
Theorem content_chunks_rebuild_text (agent : str -> outcome) (code full_analysis : str)
    (name text : str) :
  agent (build_query code) = Returned full_analysis →
  name ∈ section_order →
  parse_sections full_analysis !! name = Some text →
  text ≠ [] →
  concat (section_contents name (generate_review_stream agent code)) = strip text
  ∧ strip text = text
  ∧ section_contents name (generate_review_stream agent code) = chunks (strip text)
  ∧ (∀ k c, section_contents name (generate_review_stream agent code) !! k = Some c →
            c = slice (strip text) (k * 50) (k * 50 + 50) ∧ c ≠ [])
  ∧ ∃ before after,
      generate_review_stream agent code =
        before ++ section_block name (chunks (strip text)) ++ after.
Proof.
  intros H Hn Ht Hne.
  pose proof (parse_sections_stripped _ _ _ Ht) as Hst.
  assert (section_texts (parse_sections full_analysis) name = chunks (strip text)) as Htexts.
  { unfold section_texts. rewrite Ht, Hst. destruct text; [done|reflexivity]. }
  rewrite (section_contents_stream _ _ _ _ H Hn), Htexts.
  split; [apply chunks_concat|]. split; [done|]. split; [done|]. split.
  - intros k c Hk. pose proof (chunks_lookup _ _ _ Hk) as [-> Hlt].
    split.
    + unfold slice. by replace (k * 50 + 50 - k * 50)%nat with 50%nat by lia.
    + intros Hnil. apply (f_equal length) in Hnil.
      rewrite length_take, length_drop in Hnil. cbn [length] in Hnil. lia.
  - destruct (stream_block_split _ _ _ _ H Hn) as (before & after & Hs).
    exists before, after. by rewrite Hs, Htexts.
Qed.

Lemma content_chunks_rebuild_text_witness :
  concat (section_contents (py "readability")
            (generate_review_stream (fun _ => Returned (py "## READABILITY ANALYSIS
 clear names ")) (py "x = 1"))) = strip (py "clear names")
  ∧ strip (py "clear names") = py "clear names"
  ∧ section_contents (py "readability")
      (generate_review_stream (fun _ => Returned (py "## READABILITY ANALYSIS
 clear names ")) (py "x = 1")) = chunks (strip (py "clear names"))
  ∧ (∀ k c, section_contents (py "readability")
              (generate_review_stream (fun _ => Returned (py "## READABILITY ANALYSIS
 clear names ")) (py "x = 1")) !! k = Some c →
            c = slice (strip (py "clear names")) (k * 50) (k * 50 + 50) ∧ c ≠ [])
  ∧ ∃ before after,
      generate_review_stream (fun _ => Returned (py "## READABILITY ANALYSIS
 clear names ")) (py "x = 1") =
        before ++ section_block (py "readability") (chunks (strip (py "clear names")))
        ++ after.
Proof.
  apply (content_chunks_rebuild_text (fun _ => Returned (py "## READABILITY ANALYSIS
 clear names ")) (py "x = 1") (py "## READABILITY ANALYSIS
 clear names ") (py "readability") (py "clear names")).
  - reflexivity.
  - apply (bool_decide_unpack _). vm_compute. exact I.
  - vm_compute. reflexivity.
  - discriminate.
Defined.

(** C8: when the parsed text of a section is empty, the stream carries
    for that section exactly one content frame; it stands between the
    section's [section_start] and [section_complete] frames and its
    content field is the fixed string
    [No specific issues found in this category.], whatever the answer of
    the model is. *)
Theorem empty_section_placeholder (agent : str -> outcome) (code full_analysis name : str) :
  agent (build_query code) = Returned full_analysis →
  name ∈ section_order →
  parse_sections full_analysis !! name = Some [] →
  section_contents name (generate_review_stream agent code) =
    [py "No specific issues found in this category."]
  ∧ ∃ before after,
      generate_review_stream agent code =
        before
        ++ [ section_start name;
             content_frame name (py "No specific issues found in this category.");
             section_complete name ]
        ++ after.
Proof.
  intros H Hn Ht.
  assert (section_texts (parse_sections full_analysis) name =
          [py "No specific issues found in this category."]) as Htexts.
  { unfold section_texts. by rewrite Ht. }
  split.
  - by rewrite (section_contents_stream _ _ _ _ H Hn), Htexts.
  - destruct (stream_block_split _ _ _ _ H Hn) as (before & after & Hs).
    exists before, after. by rewrite Hs, Htexts.
Qed.

Lemma empty_section_placeholder_witness :
  section_contents (py "summary")
    (generate_review_stream (fun _ => Returned (py "## SECURITY ANALYSIS
## SUMMARY")) (py "x = 1")) =
    [py "No specific issues found in this category."]
  ∧ ∃ before after,
      generate_review_stream (fun _ => Returned (py "## SECURITY ANALYSIS
## SUMMARY")) (py "x = 1") =
        before
        ++ [ section_start (py "summary");
             content_frame (py "summary") (py "No specific issues found in this category.");
             section_complete (py "summary") ]
        ++ after.
Proof.
  apply (empty_section_placeholder (fun _ => Returned (py "## SECURITY ANALYSIS
## SUMMARY")) (py "x = 1") (py "## SECURITY ANALYSIS
## SUMMARY") (py "summary")).
  - reflexivity.
  - apply (bool_decide_unpack _). vm_compute. exact I.
  - vm_compute. reflexivity.
Defined.

(** ** health_check reads the module state *)

(** [health_check] answers from the module state. *)
Lemma health_check_reads_environ :
  fst (health_check {| environ := ∅ |})
  ≠ fst (health_check {| environ := {[ py "AWS_REGION" := py "eu-west-1" ]} |}).
Proof. vm_compute. intros [=]. Qed.

(** ** Needles without a line break are found line by line *)

Lemma split_lines_cons c (s : str) :
  split_lines (c :: s) =
  if Ascii.eqb c newline then [] :: split_lines s
  else (c :: hd [] (split_lines s)) :: tl (split_lines s).
Proof.
  cbn [split_lines]. destruct (Ascii.eqb c newline); [done|].
  destruct (split_lines s) eqn:Hs; [|done]. by destruct s.
Qed.

Lemma split_lines_hd_tl (s : str) :
  split_lines s = hd [] (split_lines s) :: tl (split_lines s).
Proof.
  destruct s as [|c s]; [done|]. rewrite split_lines_cons.
  by destruct (Ascii.eqb c newline).
Qed.

Lemma lower_char_newline c :
  Ascii.eqb (lower_char c) newline = Ascii.eqb c newline.
Proof. destruct c as [[] [] [] [] [] [] [] []]; reflexivity. Qed.

Lemma split_lines_lower (s : str) :
  split_lines (lower s) = map lower (split_lines s).
Proof.
  induction s as [|c s IH]; [done|].
  change (lower (c :: s)) with (lower_char c :: lower s).
  rewrite !split_lines_cons, lower_char_newline, IH.
  destruct (Ascii.eqb c newline); [done|].
  cbn [map]. f_equal.
  - f_equal. by destruct (split_lines s).
  - by destruct (split_lines s).
Qed.

Lemma startswith_newline (sub s : str) :
  one_line sub = true → startswith sub (newline :: s) = startswith sub [].
Proof.
  destruct sub as [|a sub]; [done|]. cbn. intros H.
  apply andb_prop in H as [Ha _]. apply negb_true_iff in Ha. by rewrite Ha.
Qed.

Lemma startswith_first_line (sub s : str) :
  one_line sub = true → startswith sub s = startswith sub (hd [] (split_lines s)).
Proof.
  revert sub. induction s as [|c s IH]; intros sub Hsub; [done|].
  rewrite split_lines_cons. destruct (Ascii.eqb c newline) eqn:Hc.
  - apply Ascii.eqb_eq in Hc as ->. by apply startswith_newline.
  - cbn [hd]. destruct sub as [|a sub]; [done|]. cbn [startswith].
    cbn in Hsub. apply andb_prop in Hsub as [_ Hsub].
    by rewrite (IH sub Hsub).
Qed.

Lemma startswith_length (sub s : str) :
  startswith sub s = true → (length sub ≤ length s)%nat.
Proof.
  revert s. induction sub as [|a sub IH]; intros s; cbn; [lia|].
  destruct s as [|b s]; [done|]. intros H.
  apply andb_prop in H as [_ H]. apply IH in H. cbn. lia.
Qed.

Lemma contains_lines (sub s : str) :
  one_line sub = true → contains sub s = existsb (contains sub) (split_lines s).
Proof.
  intros Hsub. induction s as [|c s IH]; [cbn; by rewrite !orb_false_r|].
  cbn [contains]. rewrite (startswith_first_line sub (c :: s) Hsub).
  rewrite split_lines_cons. destruct (Ascii.eqb c newline) eqn:Hc.
  - cbn [hd existsb contains]. by rewrite IH, orb_false_r.
  - rewrite IH. destruct (split_lines s) as [|l ls] eqn:Hs.
    { by rewrite split_lines_hd_tl in Hs. }
    cbn [hd tl existsb contains]. by rewrite !orb_assoc.
Qed.

Lemma count_from_lines (sub : str) :
  one_line sub = true → sub ≠ [] →
  ∀ (s : str) k, (k ≤ length (hd [] (split_lines s)))%nat →
    count_from sub s k =
    count_from sub (hd [] (split_lines s)) k + count_in_lines sub (tl (split_lines s)).
Proof.
  intros Hsub Hne. induction s as [|c s IH]; intros k Hk.
  { destruct sub; [done|]. by destruct k. }
  pose proof (startswith_first_line sub (c :: s) Hsub) as Hsw.
  rewrite split_lines_cons in *. destruct (Ascii.eqb c newline) eqn:Hc.
  - cbn [hd tl length] in *. assert (k = 0%nat) as -> by lia.
    cbn [count_from]. rewrite Hsw.
    assert (startswith sub [] = false) as -> by (by destruct sub).
    rewrite (IH 0%nat) by lia.
    rewrite (split_lines_hd_tl s) at 3. unfold count_in_lines. cbn [map fold_right].
    unfold count. destruct sub; [done|]. lia.
  - cbn [hd tl length] in *. destruct k as [|k].
    + cbn [count_from]. rewrite Hsw.
      destruct (startswith sub (c :: hd [] (split_lines s))) eqn:Hs.
      * apply startswith_length in Hs. cbn [length] in Hs.
        rewrite IH by lia. lia.
      * by rewrite IH by lia.
    + cbn [count_from]. by rewrite IH by lia.
Qed.

Lemma count_lines (sub s : str) :
  one_line sub = true → sub ≠ [] →
  count sub s = count_in_lines sub (split_lines s).
Proof.
  intros Hsub Hne. unfold count.
  rewrite (count_from_lines sub Hsub Hne s 0%nat) by lia.
  rewrite (split_lines_hd_tl s) at 3. reflexivity.
Qed.

(** ** Reordering the lines *)

Lemma count_in_lines_perm sub (l l' : list str) :
  Permutation l l' → count_in_lines sub l = count_in_lines sub l'.
Proof.
  unfold count_in_lines. induction 1; cbn [map fold_right]; lia.
Qed.

Lemma existsb_perm {A} (f : A → bool) (l l' : list A) :
  Permutation l l' → existsb f l = existsb f l'.
Proof.
  induction 1; cbn [existsb]; [done| by f_equal | | congruence].
  destruct (f x), (f y); reflexivity.
Qed.

Lemma filter_len_perm {A} (f : A → bool) (l l' : list A) :
  Permutation l l' → len (List.filter f l) = len (List.filter f l').
Proof.
  intros H. unfold len. f_equal. apply Permutation_length.
  induction H; cbn [List.filter].
  - done.
  - destruct (f x); [by constructor | done].
  - destruct (f x), (f y); try done; try (by constructor).
  - etransitivity; eassumption.
Qed.

Lemma reordered_lower code code' :
  reordered code code' → reordered (lower code) (lower code').
Proof.
  unfold reordered. rewrite !split_lines_lower. apply Permutation_map.
Qed.

Lemma contains_reordered sub code code' :
  one_line sub = true → reordered code code' →
  contains sub code = contains sub code'.
Proof.
  intros Hsub H. rewrite !contains_lines by done. by apply existsb_perm.
Qed.

Lemma count_reordered sub code code' :
  one_line sub = true → sub ≠ [] → reordered code code' →
  count sub code = count sub code'.
Proof.
  intros Hsub Hne H. rewrite !count_lines by done. by apply count_in_lines_perm.
Qed.

Lemma any_in_reordered ks code code' :
  forallb one_line ks = true → reordered code code' →
  any_in ks code = any_in ks code'.
Proof.
  intros Hks H. unfold any_in. induction ks as [|k ks IH]; [done|].
  cbn in Hks. apply andb_prop in Hks as [Hk Hks]. cbn [existsb].
  by rewrite (contains_reordered k _ _ Hk H), IH.
Qed.

Lemma patterns_one_line pattern_type p :
  patterns !! pattern_type = Some p →
  forallb (fun i => one_line (lower i)) (indicators p) = true.
Proof.
  intros H.
  assert (map_Forall
            (fun _ q => forallb (fun i => one_line (lower i)) (indicators q) = true)
            patterns) as Hall.
  { apply (bool_decide_unpack _). vm_compute. exact I. }
  exact (Hall _ _ H).
Qed.

Lemma security_reordered pattern_type :
  line_order_invariant (fun code => analyze_security_patterns code pattern_type).
Proof.
  intros code code' H. unfold analyze_security_patterns.
  destruct (patterns !! pattern_type) as [p|] eqn:Hp; [|done].
  pose proof (patterns_one_line _ _ Hp) as Hone. cbn zeta.
  assert (scan_indicators p code (indicators p) [] =
          scan_indicators p code' (indicators p) []) as ->; [|done].
  rewrite !scan_indicators_filter. do 2 f_equal.
  induction (indicators p) as [|i inds IH]; [done|].
  cbn in Hone. apply andb_prop in Hone as [Hi Hone].
  cbn [List.filter].
  rewrite (contains_reordered (lower i) (lower code) (lower code') Hi)
    by (by apply reordered_lower).
  by rewrite (IH Hone).
Qed.

Lemma quality_reordered : line_order_invariant assess_code_quality_metrics.
Proof.
  intros code code' H. pose proof (reordered_lower _ _ H) as Hl.
  unfold assess_code_quality_metrics. cbv zeta.
  rewrite (filter_len_perm (fun l => truthy (strip l)) _ _ H).
  rewrite (filter_len_perm is_comment _ _ H).
  rewrite (filter_len_perm (fun l => len l >? 100) _ _ H).
  rewrite (count_reordered (py "def ") _ _ eq_refl ltac:(discriminate) Hl).
  rewrite (count_reordered (py "function ") _ _ eq_refl ltac:(discriminate) Hl).
  rewrite (count_reordered (py "const ") _ _ eq_refl ltac:(discriminate) Hl).
  rewrite (count_reordered (py "let ") _ _ eq_refl ltac:(discriminate) Hl).
  rewrite (count_reordered (py "var ") _ _ eq_refl ltac:(discriminate) Hl).
  rewrite (any_in_reordered short_names _ _ eq_refl H).
  rewrite (contains_reordered (py "try") _ _ eq_refl Hl).
  rewrite (contains_reordered (py "catch") _ _ eq_refl Hl).
  rewrite (contains_reordered (py "except") _ _ eq_refl Hl).
  rewrite (contains_reordered [dquote; dquote; dquote] _ _ eq_refl H).
  rewrite (contains_reordered (py "///") _ _ eq_refl H).
  rewrite (contains_reordered (py "/**") _ _ eq_refl H).
  reflexivity.
Qed.

Lemma complexity_flat_fields_reordered code code' key :
  reordered code code' → key ∈ flat_complexity_fields →
  dict_get key (calculate_complexity_metrics code)
  = dict_get key (calculate_complexity_metrics code').
Proof.
  intros H Hk. pose proof (reordered_lower _ _ H) as Hl.
  assert (len (split_lines code) = len (split_lines code')) as Hlen.
  { unfold len. f_equal. by apply Permutation_length. }
  unfold calculate_complexity_metrics. cbv zeta.
  rewrite Hlen.
  rewrite (count_reordered (py "query") _ _ eq_refl ltac:(discriminate) Hl).
  rewrite (count_reordered (py "select") _ _ eq_refl ltac:(discriminate) Hl).
  rewrite (count_reordered (py "find(") _ _ eq_refl ltac:(discriminate) Hl).
  rewrite (count_reordered (py "async") _ _ eq_refl ltac:(discriminate) Hl).
  rewrite (count_reordered (py "await") _ _ eq_refl ltac:(discriminate) Hl).
  rewrite (count_reordered (py "promise") _ _ eq_refl ltac:(discriminate) Hl).
  rewrite (count_reordered (py "sleep") _ _ eq_refl ltac:(discriminate) Hl).
  rewrite (count_reordered (py "thread.") _ _ eq_refl ltac:(discriminate) Hl).
  rewrite (count_reordered (py "lock") _ _ eq_refl ltac:(discriminate) Hl).
  unfold flat_complexity_fields in Hk. cbn [map] in Hk.
  repeat (apply elem_of_cons in Hk as [-> | Hk]);
    [ repeat case_match; reflexivity .. |].
  by apply elem_of_nil in Hk.
Qed.

Lemma samples_reordered : reordered nested_sample sequential_sample.
Proof.
  unfold reordered. vm_compute. apply perm_skip, perm_swap.
Qed.

(** C4, the claim as stated, fails: [calculate_complexity_metrics] tracks
    the nesting level from line to line, so two nested loops and the same
    lines with the loops one after the other score differently. *)
Lemma complexity_depends_on_line_order : ¬ tools_line_order_invariant.
Proof.
  intros (_ & Hc & _).
  specialize (Hc nested_sample sequential_sample samples_reordered).
  vm_compute in Hc. discriminate Hc.
Qed.

Lemma deep_samples_reordered : reordered deep_nested_sample deep_sequential_sample.
Proof.
  unfold reordered. vm_compute. apply perm_skip.
  apply (Permutation_cons_app [ _ ] [ _; _; _ ]).
  apply (Permutation_cons_app [ _; _ ] [ _ ]).
  reflexivity.
Qed.

Lemma nesting_fields_depend_on_line_order key :
  key ∈ nesting_complexity_fields →
  dict_get key (calculate_complexity_metrics deep_nested_sample)
  ≠ dict_get key (calculate_complexity_metrics deep_sequential_sample).
Proof.
  unfold nesting_complexity_fields. cbn [map]. intros Hk.
  repeat (apply elem_of_cons in Hk as [-> | Hk]);
    [ vm_compute; intros [=] .. |].
  by apply elem_of_nil in Hk.
Qed.

(** C4, amended: under any reordering of the lines of the input,
    [analyze_security_patterns] and [assess_code_quality_metrics] return
    the same result, and [calculate_complexity_metrics] returns the same
    [total_lines], [database_queries], [async_operations] and
    [blocking_operations]; each of its other fields ([nested_loops],
    [max_nesting_level], [complexity_score], [complexity_level],
    [performance_impact]) takes different values on some code and a
    reordering of its lines.  These nine fields are all the result has. *)
Theorem flat_counts_ignore_line_order (code code' : str) :
  reordered code code' →
  (∀ pattern_type,
     analyze_security_patterns code pattern_type
     = analyze_security_patterns code' pattern_type)
  ∧ assess_code_quality_metrics code = assess_code_quality_metrics code'
  ∧ (∀ key, key ∈ flat_complexity_fields →
       dict_get key (calculate_complexity_metrics code)
       = dict_get key (calculate_complexity_metrics code'))
  ∧ (∀ key, key ∈ nesting_complexity_fields →
       ∃ nested sequential,
         reordered nested sequential
         ∧ dict_get key (calculate_complexity_metrics nested)
           ≠ dict_get key (calculate_complexity_metrics sequential))
  ∧ keys (calculate_complexity_metrics code)
    ≡ₚ flat_complexity_fields ++ nesting_complexity_fields.
Proof.
  intros H. split; [|split; [|split; [|split]]].
  - intros pattern_type. by apply (security_reordered pattern_type).
  - by apply quality_reordered.
  - intros key Hk. by apply complexity_flat_fields_reordered.
  - intros key Hk. exists deep_nested_sample, deep_sequential_sample.
    split; [apply deep_samples_reordered | by apply nesting_fields_depend_on_line_order].
  - unfold calculate_complexity_metrics. cbv zeta.
    repeat case_match; apply (bool_decide_unpack _); vm_compute; exact I.
Qed.

Lemma flat_counts_ignore_line_order_witness :
  (∀ pattern_type,
     analyze_security_patterns nested_sample pattern_type
     = analyze_security_patterns sequential_sample pattern_type)
  ∧ assess_code_quality_metrics nested_sample
    = assess_code_quality_metrics sequential_sample
  ∧ (∀ key, key ∈ flat_complexity_fields →
       dict_get key (calculate_complexity_metrics nested_sample)
       = dict_get key (calculate_complexity_metrics sequential_sample))
  ∧ (∀ key, key ∈ nesting_complexity_fields →
       ∃ nested sequential,
         reordered nested sequential
         ∧ dict_get key (calculate_complexity_metrics nested)
           ≠ dict_get key (calculate_complexity_metrics sequential))
  ∧ keys (calculate_complexity_metrics nested_sample)
    ≡ₚ flat_complexity_fields ++ nesting_complexity_fields.
Proof.
  apply (flat_counts_ignore_line_order nested_sample sequential_sample).
  unfold reordered. vm_compute. apply perm_skip, perm_swap.
Defined.

(** ** Characters under case folding *)

Lemma isspace_lower_char c : isspace (lower_char c) = isspace c.
Proof. destruct c as [[] [] [] [] [] [] [] []]; reflexivity. Qed.

Lemma upper_lower_char c :
  is_header_char (upper_char (lower_char c)) = true →
  upper_char (lower_char c) = upper_char c.
Proof. destruct c as [[] [] [] [] [] [] [] []]; try reflexivity; intros [=]. Qed.

Lemma upper_lower_header_char c :
  is_header_char c = true → upper_char (lower_char c) = c.
Proof. destruct c as [[] [] [] [] [] [] [] []]; try reflexivity; intros [=]. Qed.

Lemma upper_char_folded a b :
  lower_char a = lower_char b → is_header_char b = true → upper_char a = b.
Proof.
  intros Hab Hb. pose proof (upper_lower_header_char b Hb) as Hu.
  rewrite <- Hab in Hu. rewrite <- Hu. symmetry.
  apply upper_lower_char. by rewrite Hu.
Qed.

Lemma isspace_folded a b : lower_char a = lower_char b → isspace a = isspace b.
Proof.
  intros H. by rewrite <- (isspace_lower_char a), H, isspace_lower_char.
Qed.

Lemma upper_folded (g h : str) :
  lower g = lower h → forallb is_header_char h = true → upper g = h.
Proof.
  revert h. induction g as [|a g IH]; intros [|b h]; try done.
  cbn. intros [= Hab Hgh] Hh. apply andb_prop in Hh as [Hb Hh].
  f_equal; [by apply upper_char_folded | by apply IH].
Qed.

Lemma lstrip_folded (g h : str) :
  lower g = lower h → lstrip h = h → lstrip g = g.
Proof.
  destruct g as [|a g], h as [|b h]; try done.
  cbn [lower map]. intros [= Hab _] Hh.
  apply lstrip_fixed_head in Hh. cbn [lstrip].
  by rewrite (isspace_folded a b Hab), Hh.
Qed.

Lemma lower_rev (s : str) : lower (rev s) = rev (lower s).
Proof. unfold lower. by rewrite map_rev. Qed.

Lemma strip_folded (g h : str) :
  lower g = lower h → lstrip h = h → lstrip (rev h) = rev h → strip g = g.
Proof.
  intros Hgh H1 H2. unfold strip, rstrip.
  rewrite (lstrip_folded g h Hgh H1).
  rewrite (lstrip_folded (rev g) (rev h)); [apply rev_involutive| |done].
  by rewrite !lower_rev, Hgh.
Qed.

(** ** The header pattern *)

Lemma match_literal_sound lit (s g r : str) :
  match_literal lit s = Some (g, r) → s = g ++ r ∧ lower g = lower lit.
Proof.
  revert s g r. induction lit as [|a lit IH]; intros s g r.
  - cbn. by intros [= <- <-].
  - destruct s as [|b s]; [done|]. cbn [match_literal].
    destruct (Ascii.eqb (lower_char a) (lower_char b)) eqn:Hab; [|done].
    destruct (match_literal lit s) as [[m r']|] eqn:Hm; [|done].
    intros [= <- <-]. apply IH in Hm as [-> Hl].
    apply Ascii.eqb_eq in Hab. split; [done|].
    unfold lower in *. cbn [map]. congruence.
Qed.

Lemma match_literal_complete lit (g r : str) :
  lower g = lower lit → match_literal lit (g ++ r) = Some (g, r).
Proof.
  revert g. induction lit as [|a lit IH]; intros [|b g]; try done.
  unfold lower in *. cbn [map app match_literal]. intros [= Hab Hl].
  by rewrite Hab, Ascii.eqb_refl, (IH g Hl).
Qed.

Lemma match_alternatives_sound alts (s g r : str) :
  match_alternatives alts s = Some (g, r) →
  s = g ++ r ∧ ∃ h, h ∈ alts ∧ lower g = lower h.
Proof.
  induction alts as [|a alts IH]; [done|]. cbn [match_alternatives].
  destruct (match_literal a s) as [[g' r']|] eqn:Hm.
  - intros [= <- <-]. apply match_literal_sound in Hm as [-> Hl].
    split; [done|]. exists a. split; [by left|done].
  - intros H. apply IH in H as [-> (h & Hh & Hl)].
    split; [done|]. exists h. split; [by right|done].
Qed.

Lemma match_alternatives_complete alts (h g r : str) :
  NoDup (map folded_head alts) → [] ∉ alts →
  h ∈ alts → lower g = lower h →
  match_alternatives alts (g ++ r) = Some (g, r).
Proof.
  induction alts as [|a alts IH]; intros Hnd Hne Hh Hl.
  { by apply elem_of_nil in Hh. }
  cbn [match_alternatives map] in *. apply NoDup_cons in Hnd as [Hfresh Hnd].
  apply not_elem_of_cons in Hne as [Ha Hne].
  apply elem_of_cons in Hh as [-> | Hh].
  { by rewrite (match_literal_complete a g r Hl). }
  destruct (match_literal a (g ++ r)) as [[g' r']|] eqn:Hm.
  - exfalso. apply Hfresh. apply match_literal_sound in Hm as [Heq Hl'].
    assert (folded_head a = folded_head h) as ->.
    { destruct a as [|a0 a]; [done|]. destruct g' as [|b' g']; [done|].
      destruct h as [|h0 h]; [by destruct Hne|]. destruct g as [|b g]; [done|].
      cbn in Heq, Hl, Hl'. injection Heq as <- _. injection Hl as Hl _.
      injection Hl' as Hl' _. cbn. congruence. }
    apply list_elem_of_fmap. by exists h.
  - by apply IH.
Qed.

Lemma headers_distinct : NoDup (map folded_head headers) ∧ [] ∉ headers.
Proof. split; apply (bool_decide_unpack _); vm_compute; exact I. Qed.

Lemma headers_clean h :
  h ∈ headers →
  lstrip h = h ∧ lstrip (rev h) = rev h ∧ forallb is_header_char h = true.
Proof.
  unfold headers. cbn [map]. intros H.
  repeat (apply elem_of_cons in H as [-> | H]); [by vm_compute .. |].
  by apply elem_of_nil in H.
Qed.

Lemma header_key_intro (h g : str) :
  h ∈ headers → lower g = lower h →
  ∃ key, header_key g = Some key ∧ (key, h) ∈ section_headers.
Proof.
  unfold headers, header_key. cbn [map]. intros H Hl. rewrite Hl.
  repeat (apply elem_of_cons in H as [-> | H]);
    [ eexists; split; [vm_compute; reflexivity|];
      apply (bool_decide_unpack _); vm_compute; exact I .. |].
  by apply elem_of_nil in H.
Qed.

Lemma header_key_inv (g key : str) :
  header_key g = Some key →
  ∃ h, (key, h) ∈ section_headers ∧ h ∈ headers ∧ lower g = lower h.
Proof.
  unfold header_key.
  destruct (List.find _ section_headers) as [[k h]|] eqn:Hf; [|done].
  cbn. intros [= ->]. apply find_some in Hf as [Hin Hb].
  apply bool_decide_eq_true in Hb. cbn in Hb.
  apply list_elem_of_In in Hin. exists h. split; [done|]. split; [|done].
  unfold section_headers in Hin.
  repeat (apply elem_of_cons in Hin as [[= _ ->] | Hin]);
    [ apply (bool_decide_unpack _); vm_compute; exact I .. |].
  by apply elem_of_nil in Hin.
Qed.

Lemma header_is_key (g : str) :
  is_Some (header_key g) ↔ ∃ h, h ∈ headers ∧ lower g = lower h.
Proof.
  split.
  - intros [key Hk]. apply header_key_inv in Hk as (h & _ & Hh & Hl). eauto.
  - intros (h & Hh & Hl). destruct (header_key_intro h g Hh Hl) as (key & -> & _).
    by eexists.
Qed.

Lemma header_starts_unspaced (g : str) :
  is_Some (header_key g) → ∃ a g', g = a :: g' ∧ isspace a = false.
Proof.
  intros Hg. apply header_is_key in Hg as (h & Hh & Hl).
  destruct (headers_clean h Hh) as (H1 & _ & _).
  pose proof (lstrip_folded g h Hl H1) as Hs.
  destruct g as [|a g'].
  - destruct h; [|done]. exfalso. by apply (proj2 headers_distinct).
  - exists a, g'. split; [done|]. by apply lstrip_fixed_head in Hs.
Qed.

Lemma match_headers_sound (s g r : str) :
  match_alternatives headers s = Some (g, r) → s = g ++ r ∧ is_Some (header_key g).
Proof.
  intros H. apply match_alternatives_sound in H as [-> Hh].
  split; [done|]. by apply header_is_key.
Qed.

Lemma match_headers_complete (g r : str) :
  is_Some (header_key g) → match_alternatives headers (g ++ r) = Some (g, r).
Proof.
  intros Hg. apply header_is_key in Hg as (h & Hh & Hl).
  destruct headers_distinct as [Hnd Hne].
  by apply (match_alternatives_complete headers h).
Qed.

Lemma match_spaces_sound (s g r : str) :
  match_spaces s = Some (g, r) →
  ∃ ws, forallb isspace ws = true ∧ s = ws ++ g ++ r ∧ is_Some (header_key g).
Proof.
  induction s as [|c s IH]; cbn [match_spaces].
  - intros H. apply match_headers_sound in H as [-> Hk]. by exists [].
  - destruct (isspace c) eqn:Hc.
    + destruct (match_spaces s) as [[g' r']|] eqn:Hm.
      * intros [= -> ->]. destruct IH as (ws & Hws & -> & Hk); [done|].
        exists (c :: ws). cbn. by rewrite Hc, Hws.
      * intros H. apply match_headers_sound in H as [-> Hk]. by exists [].
    + intros H. apply match_headers_sound in H as [-> Hk]. by exists [].
Qed.

Lemma match_spaces_complete (ws g r : str) :
  forallb isspace ws = true → is_Some (header_key g) →
  match_spaces (ws ++ g ++ r) = Some (g, r).
Proof.
  intros Hws Hg. induction ws as [|c ws IH].
  - destruct (header_starts_unspaced g Hg) as (a & g' & -> & Ha).
    cbn [app match_spaces]. rewrite Ha.
    by apply (match_headers_complete (a :: g') r).
  - cbn in Hws. apply andb_prop in Hws as [Hc Hws].
    cbn [app match_spaces]. by rewrite Hc, (IH Hws).
Qed.

Lemma match_here_sound (s g r : str) :
  match_here s = Some (g, r) → marker g s r.
Proof.
  destruct s as [|a [|b [|c s]]]; try done. cbn [match_here].
  destruct (Ascii.eqb a "#") eqn:Ha; [|done].
  destruct (Ascii.eqb b "#") eqn:Hb; [|done].
  destruct (isspace c) eqn:Hc; [|done]. cbn [andb].
  apply Ascii.eqb_eq in Ha as ->. apply Ascii.eqb_eq in Hb as ->.
  intros H. apply match_spaces_sound in H as (ws & Hws & -> & Hk).
  exists (c :: ws). cbn. by rewrite Hc, Hws.
Qed.

Lemma match_here_complete (s g r : str) :
  marker g s r → match_here s = Some (g, r).
Proof.
  intros (ws & -> & Hne & Hws & Hk). destruct ws as [|c ws]; [done|].
  cbn in Hws. apply andb_prop in Hws as [Hc Hws].
  cbn. rewrite Hc. cbn. by apply match_spaces_complete.
Qed.

(** ** Leftmost search and the split *)

Lemma search_unfold (s : str) :
  search s =
  match match_here s with
  | Some (g, rest) => Some ([], g, rest)
  | None =>
      match s with
      | [] => None
      | c :: s' =>
          match search s' with
          | Some (pre, g, rest) => Some (c :: pre, g, rest)
          | None => None
          end
      end
  end.
Proof. by destruct s. Qed.

Lemma search_none (s : str) n : search s = None → marker_free n s.
Proof.
  revert n. induction s as [|c s IH]; intros n; rewrite search_unfold.
  - intros _ i g rest _ Hm. rewrite drop_nil in Hm.
    by apply match_here_complete in Hm.
  - destruct (match_here (c :: s)) as [[g0 r0]|] eqn:Hh; [done|].
    destruct (search s) as [[[pre g1] r1]|] eqn:Hs; [done|]. intros _.
    intros [|i] g rest Hi Hm.
    + apply match_here_complete in Hm. cbn [drop] in Hm. congruence.
    + cbn [drop] in Hm. by apply (IH (S i) eq_refl i g rest); [lia|].
Qed.

Lemma search_some (s pre g rest : str) :
  search s = Some (pre, g, rest) →
  ∃ m, s = pre ++ m ∧ marker g m rest ∧ marker_free (length pre) s.
Proof.
  revert pre. induction s as [|c s IH]; intros pre; rewrite search_unfold.
  - by cbn.
  - destruct (match_here (c :: s)) as [[g0 r0]|] eqn:Hh.
    + intros [= <- <- <-]. exists (c :: s). split; [done|].
      split; [by apply match_here_sound|]. intros i ? ? Hi. cbn in Hi. lia.
    + destruct (search s) as [[[pre1 g1] r1]|] eqn:Hs; [|done].
      intros [= <- <- <-]. destruct (IH pre1 eq_refl) as (m & -> & Hm & Hfree).
      exists m. split; [done|]. split; [done|].
      intros [|i] g' rest' Hi Hm'.
      * apply match_here_complete in Hm'. cbn [drop] in Hm'. congruence.
      * cbn [drop] in Hm'. apply (Hfree i g' rest'); [cbn in Hi; lia | done].
Qed.

Lemma marker_shorter (g m rest : str) : marker g m rest → (length rest < length m)%nat.
Proof.
  intros (ws & -> & _ & _ & _). rewrite !length_app. cbn. lia.
Qed.

Lemma split_from_cons fuel (s : str) :
  split_from fuel s = hd [] (split_from fuel s) :: tl (split_from fuel s).
Proof.
  destruct fuel; [done|]. cbn [split_from].
  by destruct (search s) as [[[pre g] rest]|].
Qed.

Lemma split_from_layout fuel (s : str) :
  (length s ≤ fuel)%nat →
  layout s (hd [] (split_from fuel s)) (pairs (tl (split_from fuel s))).
Proof.
  revert s. induction fuel as [|fuel IH]; intros s Hlen.
  - cbn. apply layout_end. apply search_none.
    destruct s; [done | cbn in Hlen; lia].
  - cbn [split_from]. destruct (search s) as [[[pre g] rest]|] eqn:Hs.
    + apply search_some in Hs as (m & -> & Hm & Hfree).
      cbn [hd tl]. rewrite (split_from_cons fuel rest). cbn [pairs].
      apply (layout_block pre m g rest); [done | done |].
      apply IH. apply marker_shorter in Hm. rewrite length_app in Hlen. lia.
    + cbn. apply layout_end. by apply search_none.
Qed.

Lemma split_from_pairs fuel (s : str) :
  tl (split_from fuel s) =
  flat_map (fun gt => [fst gt; snd gt]) (pairs (tl (split_from fuel s))).
Proof.
  revert s. induction fuel as [|fuel IH]; intros s; [done|].
  cbn [split_from]. destruct (search s) as [[[pre g] rest]|]; [|done].
  cbn [tl]. rewrite (split_from_cons fuel rest). cbn [pairs flat_map app fst snd].
  by rewrite <- IH.
Qed.

Lemma re_split_layout (s : str) :
  layout s (hd [] (re_split s)) (pairs (tl (re_split s))).
Proof. by apply split_from_layout. Qed.

Lemma layout_headers (s pre : str) blocks :
  layout s pre blocks → Forall (fun gb => is_Some (header_key (fst gb))) blocks.
Proof.
  induction 1 as [|pre m g rest body blocks _ Hm _ IH]; [constructor|].
  constructor; [|done]. by destruct Hm as (ws & _ & _ & _ & Hk).
Qed.

(** ** The loop of parse_sections *)

Lemma fold_left_indexed {M B} (F : M → nat → M) (store : M → B → M)
    (idx : nat → nat) (ps : list B) (m : M) :
  (∀ m k b, ps !! k = Some b → F m (idx k) = store m b) →
  fold_left F (map idx (seq 0 (length ps))) m = fold_left store ps m.
Proof.
  revert m. induction ps as [|b ps IH] using rev_ind; intros m HF; [done|].
  rewrite length_app. cbn [length]. rewrite Nat.add_1_r, seq_S, map_app, !fold_left_app.
  cbn [map fold_left Nat.add].
  rewrite IH.
  - apply HF. by rewrite lookup_app_r, Nat.sub_diag.
  - intros m' k b' Hk. apply HF. by apply lookup_app_l_Some.
Qed.

Lemma flat_pairs_lookup (ps : list (str * str)) k g t :
  ps !! k = Some (g, t) →
  flat_map (fun gt => [fst gt; snd gt]) ps !! (k * 2)%nat = Some g
  ∧ flat_map (fun gt => [fst gt; snd gt]) ps !! (k * 2 + 1)%nat = Some t.
Proof.
  revert k. induction ps as [|[g0 t0] ps IH]; intros k; [done|].
  destruct k as [|k]; cbn [flat_map app fst snd].
  - by intros [= -> ->].
  - intros Hk. apply IH in Hk as [H1 H2].
    replace (S k * 2)%nat with (S (S (k * 2))) by lia. by split.
Qed.

Lemma flat_pairs_length (ps : list (str * str)) :
  length (flat_map (fun gt => [fst gt; snd gt]) ps) = (2 * length ps)%nat.
Proof. induction ps as [|p ps IH]; cbn [flat_map app length]; lia. Qed.

Lemma range_odd n :
  range 1 (S (2 * n)) 2 = map (fun k => (1 + k * 2)%nat) (seq 0 n).
Proof.
  unfold range. do 2 f_equal.
  replace (S (2 * n) - 1 + (2 - 1))%nat with (1 + n * 2)%nat by lia.
  rewrite Nat.div_add by lia. reflexivity.
Qed.

Lemma parse_step_at parts sections i g t :
  parts !! i = Some g → parts !! (i + 1)%nat = Some t →
  parse_step parts sections i = parse_step [[]; g; t] sections 1.
Proof.
  intros Hg Ht. unfold parse_step. rewrite Hg, Ht.
  pose proof (lookup_lt_Some _ _ _ Ht) as Hlt.
  apply Nat.ltb_lt in Hlt. rewrite Hlt. reflexivity.
Qed.

Lemma parse_loop pre (ps : list (str * str)) sections :
  let parts := pre :: flat_map (fun gt => [fst gt; snd gt]) ps in
  fold_left (parse_step parts) (range 1 (length parts) 2) sections =
  fold_left (fun m gt => parse_step [[]; fst gt; snd gt] m 1) ps sections.
Proof.
  intros parts. unfold parts at 2. cbn [length]. rewrite flat_pairs_length, range_odd.
  apply (fold_left_indexed (parse_step parts)
           (fun m gt => parse_step [[]; fst gt; snd gt] m 1)).
  intros m k [g t] Hk. apply flat_pairs_lookup in Hk as [H1 H2].
  cbn [fst snd]. apply parse_step_at; unfold parts.
  - replace (1 + k * 2)%nat with (S (k * 2)) by lia. exact H1.
  - replace (1 + k * 2 + 1)%nat with (S (k * 2 + 1)) by lia. exact H2.
Qed.

Lemma parse_sections_blocks (s : str) :
  parse_sections s =
  fold_left (fun m gt => parse_step [[]; fst gt; snd gt] m 1)
    (pairs (tl (re_split s))) empty_sections.
Proof.
  unfold parse_sections. cbn zeta.
  pose proof (parse_loop (hd [] (re_split s)) (pairs (tl (re_split s))) empty_sections) as H.
  cbn zeta in H. unfold re_split in *.
  rewrite <- split_from_pairs, <- split_from_cons in H. exact H.
Qed.

Lemma parse_step_store (g t key : str) (sections : gmap str str) :
  header_key g = Some key →
  parse_step [[]; g; t] sections 1 = <[key := strip t]> sections.
Proof.
  intros Hk. apply header_key_inv in Hk as (h & Hin & Hh & Hl).
  destruct (headers_clean h Hh) as (H1 & H2 & H3).
  unfold parse_step. cbn [length Nat.add Nat.ltb Nat.leb lookup list_lookup].
  rewrite (strip_folded g h Hl H1 H2), (upper_folded g h Hl H3).
  unfold section_headers in Hin.
  repeat (apply elem_of_cons in Hin as [[= -> ->] | Hin]); [reflexivity .. |].
  by apply elem_of_nil in Hin.
Qed.

Lemma fold_store_lookup (blocks : list (str * str)) (m : gmap str str) key x :
  Forall (fun gb => is_Some (header_key (fst gb))) blocks →
  m !! key = Some x →
  fold_left (fun m gt => parse_step [[]; fst gt; snd gt] m 1) blocks m !! key =
  Some (fold_left
          (fun acc gb => if decide (header_key (fst gb) = Some key)
                         then strip (snd gb) else acc) blocks x).
Proof.
  intros Hall. revert m x. induction Hall as [|[g t] blocks [k Hk] _ IH]; intros m x Hm.
  { done. }
  cbn [fst] in Hk. cbn [fold_left fst snd]. rewrite (parse_step_store g t k m Hk). apply IH.
  rewrite Hk. rewrite lookup_insert. case_decide as Hd.
  - subst k. by rewrite decide_True.
  - rewrite decide_False by congruence. done.
Qed.

Lemma empty_sections_lookup key :
  key ∈ section_order → empty_sections !! key = Some [].
Proof.
  unfold section_order. cbn [map]. intros H.
  repeat (apply elem_of_cons in H as [-> | H]); [by vm_compute .. |].
  by apply elem_of_nil in H.
Qed.

Lemma parse_sections_last_text (s key : str) :
  key ∈ section_order →
  parse_sections s !! key = Some (last_text key (pairs (tl (re_split s)))).
Proof.
  intros Hk. rewrite parse_sections_blocks. unfold last_text.
  apply fold_store_lookup; [|by apply empty_sections_lookup].
  eapply layout_headers. apply re_split_layout.
Qed.



(** ** The layout of a response is the one the split finds *)

Lemma search_found (pre m g rest : str) :
  marker g m rest → marker_free (length pre) (pre ++ m) →
  search (pre ++ m) = Some (pre, g, rest).
Proof.
  intros Hm. induction pre as [|c pre IH]; intros Hfree; rewrite search_unfold.
  - cbn [app]. by rewrite (match_here_complete m g rest Hm).
  - destruct (match_here ((c :: pre) ++ m)) as [[g0 r0]|] eqn:Hh.
    + exfalso. apply match_here_sound in Hh.
      apply (Hfree 0%nat g0 r0); [cbn; lia | done].
    + cbn [app]. rewrite IH; [done|].
      intros i g' rest' Hi Hm'. apply (Hfree (S i) g' rest'); [cbn; lia | done].
Qed.

Lemma search_not_found (s : str) :
  marker_free (S (length s)) s → search s = None.
Proof.
  induction s as [|c s IH]; intros Hfree; rewrite search_unfold.
  - destruct (match_here []) as [[g0 r0]|] eqn:Hh; [|done]. done.
  - destruct (match_here (c :: s)) as [[g0 r0]|] eqn:Hh.
    + exfalso. apply match_here_sound in Hh.
      apply (Hfree 0%nat g0 r0); [lia | done].
    + rewrite IH; [done|].
      intros i g' rest' Hi Hm'. apply (Hfree (S i) g' rest'); [cbn; lia | done].
Qed.

Lemma pairs_flat (blocks : list (str * str)) :
  pairs (flat_map (fun gt => [fst gt; snd gt]) blocks) = blocks.
Proof.
  induction blocks as [|[g t] blocks IH]; [done|].
  cbn [flat_map app fst snd pairs]. by rewrite IH.
Qed.

Lemma layout_split_from (s pre : str) blocks :
  layout s pre blocks →
  ∀ fuel, (length s ≤ fuel)%nat →
    split_from fuel s = pre :: flat_map (fun gt => [fst gt; snd gt]) blocks.
Proof.
  induction 1 as [s Hfree | pre m g rest body blocks Hfree Hm _ IH]; intros fuel Hlen.
  - destruct fuel; [done|]. cbn [split_from]. by rewrite (search_not_found s Hfree).
  - pose proof (marker_shorter _ _ _ Hm) as Hlt. rewrite length_app in Hlen.
    destruct fuel as [|fuel]; [lia|]. cbn [split_from].
    rewrite (search_found pre m g rest Hm Hfree).
    rewrite IH by lia. reflexivity.
Qed.

Lemma layout_unique (s pre : str) blocks :
  layout s pre blocks → blocks = pairs (tl (re_split s)).
Proof.
  intros H. unfold re_split. rewrite (layout_split_from _ _ _ H) by done.
  cbn [tl]. by rewrite pairs_flat.
Qed.





Example parse_sections_sample :
  map_to_list (parse_sections (py "intro ## Security Analysis
 one ## SUMMARY ## security analysis two"))
  ≡ₚ [ (py "security", py "two"); (py "performance", []);
       (py "readability", []); (py "summary", []) ].
Proof.
  apply (bool_decide_unpack _). vm_compute. exact I.
Qed.

(** ** Worked inputs *)

Example security_sample :
  analyze_security_patterns (py "db.Execute(q)") (py "sql_injection") =
  VDict [ (py "pattern_type", VStr (py "sql_injection"));
          (py "findings",
           VList [ VDict [ (py "indicator", VStr (py "execute("));
                           (py "severity", VStr (py "Critical"));
                           (py "description",
                            VStr (py "Potential SQL injection vulnerability detected"));
                           (py "found", VBool true) ] ]);
          (py "total_findings", VInt 1);
          (py "severity", VStr (py "Critical")) ].
Proof. vm_compute. reflexivity. Qed.

Example complexity_nested :
  calculate_complexity_metrics nested_sample =
  VDict [ (py "total_lines", VInt 4);
          (py "nested_loops", VInt 1);
          (py "database_queries", VInt 0);
          (py "async_operations", VInt 0);
          (py "blocking_operations", VInt 0);
          (py "max_nesting_level", VInt 2);
          (py "complexity_score", VInt 7);
          (py "complexity_level", VStr (py "Low"));
          (py "performance_impact", VStr (py "Good performance characteristics")) ].
Proof. vm_compute. reflexivity. Qed.

Example complexity_sequential :
  dict_get (py "nested_loops") (calculate_complexity_metrics sequential_sample) = Some (VInt 0)
  ∧ dict_get (py "max_nesting_level") (calculate_complexity_metrics sequential_sample)
    = Some (VInt 1)
  ∧ dict_get (py "complexity_score") (calculate_complexity_metrics sequential_sample)
    = Some (VInt 2).
Proof. vm_compute. repeat split. Qed.

(** A commented function with error handling: the comment ratio saturates
    [min(30, ...)], which returns the [int] 30, and the score stays an
    [int]. *)
Example quality_int_score :
  let code := py "# hi
def f(x):
    try:
        return 1
    except E:
        pass
" in
  dict_get (py "total_lines") (assess_code_quality_metrics code) = Some (VInt 6)
  ∧ dict_get (py "comment_lines") (assess_code_quality_metrics code) = Some (VInt 1)
  ∧ dict_get (py "function_count") (assess_code_quality_metrics code) = Some (VInt 1)
  ∧ dict_get (py "quality_score") (assess_code_quality_metrics code) = Some (VInt 85)
  ∧ dict_get (py "quality_level") (assess_code_quality_metrics code)
    = Some (VStr (py "High")).
Proof. vm_compute. repeat split. Qed.

(** Without a comment [min(30, 0.0)] is the [float] 0.0 and the score is a
    [float]. *)
Example quality_float_score :
  dict_get (py "quality_score") (assess_code_quality_metrics (py "x = 1"))
  = Some (VFloat (float_of_int 35))
  ∧ dict_get (py "quality_level") (assess_code_quality_metrics (py "x = 1"))
    = Some (VStr (py "Low"))
  ∧ dict_get (py "naming_issues") (assess_code_quality_metrics (py "x=1"))
    = Some (VList [VStr (py "Short/unclear variable names detected")]).
Proof. vm_compute. repeat split. Qed.

Example round2_samples :
  round2_float (truediv 200 3) = truediv 6667 100
  ∧ round2_float (truediv 2675 1000) = truediv 267 100
  ∧ fmul (float_of_int 30) tenth = float_of_int 3.
Proof. vm_compute. repeat split. Qed.

Example re_split_sample :
  re_split (py "x ##  security analysis foo ### Performance Analysisbar") =
  [ py "x "; py "security analysis"; py " foo #"; py "Performance Analysis"; py "bar" ].
Proof. vm_compute. reflexivity. Qed.

Example review_code_error :
  review_code (fun _ => Raised {| exc_type := py "ValueError"; exc_message := py "boom" |})
    (py "x = 1") =
  [ py "data: {" ++ [dquote] ++ py "type" ++ [dquote] ++ py ": " ++ [dquote] ++ py "error"
    ++ [dquote] ++ py ", " ++ [dquote] ++ py "message" ++ [dquote] ++ py ": " ++ [dquote]
    ++ py "ValueError: boom" ++ [dquote] ++ py "}" ++ [newline; newline] ].
Proof. vm_compute. reflexivity. Qed.

(** * Further properties *)

(** ** Import-time set-up *)

(** X13: the import succeeds exactly when both AWS credentials are in the
    environment; it then leaves the environment as it was except for
    [AWS_DEFAULT_REGION], set to [AWS_REGION] or to [us-east-1].  With a
    credential missing the assignment of [None] raises [TypeError]. *)
Theorem startup_needs_credentials (g : globals) :
  match environ g !! py "AWS_ACCESS_KEY_ID", environ g !! py "AWS_SECRET_ACCESS_KEY" with
  | Some _, Some _ =>
      startup g =
      inr {| environ :=
               <[py "AWS_DEFAULT_REGION" :=
                   match environ g !! py "AWS_REGION" with
                   | Some v => v
                   | None => py "us-east-1"
                   end]> (environ g) |}
  | _, _ =>
      startup g = inl none_refused
      ∧ exc_type none_refused = py "TypeError"
  end.
Proof.
  unfold startup, setenv.
  destruct (environ g !! py "AWS_ACCESS_KEY_ID") as [k|] eqn:Hk; [|done].
  rewrite (insert_id _ _ _ Hk).
  destruct (environ g !! py "AWS_SECRET_ACCESS_KEY") as [v|] eqn:Hv; [|done].
  by rewrite (insert_id _ _ _ Hv).
Qed.

(** ** extract_text_from_result *)

(** X14: the function returns a [str], except when it hands back, as it
    is, the [text] entry of the first block of [last_message] (of its
    [content] list, or of [last_message] itself when that is a list) and
    that entry is not a [str]. *)
Theorem extract_text_is_str_unless_text_entry (repr : pyobj → str) (result : pyobj) :
  (∃ s, extract_text_from_result repr result = OStr s)
  ∨ ∃ msg first rest,
      getattr result (py "last_message") = Some msg
      ∧ (msg = OList (ODict first :: rest)
         ∨ ∃ d, msg = ODict d
                ∧ obj_get (py "content") d = Some (OList (ODict first :: rest)))
      ∧ obj_get (py "text") first = Some (extract_text_from_result repr result).
Proof.
  destruct result as [s|items|elems|attrs|]; try (left; eexists; reflexivity).
  - left. unfold extract_text_from_result, from_last_message, from_message, from_dict.
    cbn [getattr]. repeat case_match; simplify_eq; eexists; reflexivity.
  - unfold extract_text_from_result, from_last_message.
    destruct (getattr (OInst attrs) (py "last_message")) as [msg|] eqn:Hmsg.
    + destruct msg as [s|d|l| |].
      * left. by eexists.
      * destruct (obj_get (py "content") d) as [content|] eqn:Hc.
        -- destruct content as [ | |[|[ |first| | | ] rest]| | ];
             try (left; eexists; reflexivity).
           destruct (obj_get (py "text") first) as [t|] eqn:Ht;
             [|left; eexists; reflexivity].
           right. exists (ODict d), first, rest. split; [done|]. split; [|done].
           right. by exists d.
        -- destruct (obj_get (py "text") d); [left; eexists; reflexivity|].
           left. unfold from_message, from_dict. repeat case_match; simplify_eq; eexists; reflexivity.
      * destruct l as [|[ |first| | | ] rest];
          try (left; unfold from_message, from_dict; repeat case_match; simplify_eq; eexists; reflexivity).
        destruct (obj_get (py "text") first) as [t|] eqn:Ht.
        -- right. exists (OList (ODict first :: rest)), first, rest.
           split; [done|]. split; [by left | done].
        -- left. unfold from_message, from_dict. repeat case_match; simplify_eq; eexists; reflexivity.
      * left. unfold from_message, from_dict. repeat case_match; simplify_eq; eexists; reflexivity.
      * left. unfold from_message, from_dict. repeat case_match; simplify_eq; eexists; reflexivity.
    + left. unfold from_message, from_dict. repeat case_match; simplify_eq; eexists; reflexivity.
Qed.

(** ** The wire form of a frame *)

Lemma json_escape_printable c : forallb printable (json_escape c) = true.
Proof. destruct c as [[] [] [] [] [] [] [] []]; reflexivity. Qed.

Lemma json_string_printable (s : str) : forallb printable (json_string s) = true.
Proof.
  unfold json_string. rewrite !forallb_app. cbn [forallb].
  assert (forallb printable (flat_map json_escape s) = true) as ->; [|reflexivity].
  induction s as [|c s IH]; [done|]. cbn [flat_map].
  by rewrite forallb_app, json_escape_printable, IH.
Qed.

Lemma join_printable (sep : str) (items : list str) :
  forallb printable sep = true →
  Forall (fun x => forallb printable x = true) items →
  forallb printable (join sep items) = true.
Proof.
  intros Hsep. induction 1 as [|x items Hx _ IH]; [done|].
  cbn [join]. destruct items as [|y items]; [done|].
  by rewrite !forallb_app, Hx, Hsep, IH.
Qed.

(** X12: whatever a frame carries, the string yielded for it is [data: ],
    one line of printable ASCII characters, and a blank line: line breaks
    and characters outside ASCII in the content reach the wire escaped and
    cannot end the event early. *)
Theorem sse_line_printable (f : frame) :
  ∃ line,
    sse f = py "data: " ++ line ++ [newline; newline]
    ∧ forallb printable line = true
    ∧ newline ∉ line.
Proof.
  exists (json_dumps f). split; [reflexivity|].
  assert (forallb printable (json_dumps f) = true) as Hp.
  { unfold json_dumps. rewrite !forallb_app. cbn [py list_ascii_of_string forallb].
    rewrite join_printable; [reflexivity | reflexivity |].
    apply Forall_forall. intros x Hx. apply list_elem_of_fmap in Hx as (kv & -> & _).
    by rewrite !forallb_app, !json_string_printable. }
  split; [done|]. intros Hin.
  rewrite forallb_forall in Hp. apply list_elem_of_In in Hin.
  by specialize (Hp _ Hin).
Qed.

(** ** The end of the stream *)

(** X11: every stream, whether the agent returns or raises, is a run of
    section frames ([section_start], [content], [section_complete])
    followed by exactly one terminal frame, [complete] or [error], which
    comes last. *)
Theorem stream_ends_with_one_terminal_frame (agent : str → outcome) (code : str) :
  ∃ fs last,
    generate_review_stream agent code = fs ++ [last]
    ∧ Forall (has_type section_frame_types) fs
    ∧ (last = complete_frame
       ∨ ∃ e, agent (build_query code) = Raised e
              ∧ last = error_frame (exc_type e ++ py ": " ++ exc_message e)).
Proof.
  destruct (agent (build_query code)) as [e|full] eqn:Ha.
  - exists [], (error_frame (exc_type e ++ py ": " ++ exc_message e)).
    split; [|split; [constructor | right; by exists e]].
    unfold generate_review_stream, review_body. by rewrite Ha.
  - eexists _, complete_frame. split; [by apply (stream_returned _ _ full)|].
    split; [|by left].
    induction section_order as [|name order IH]; [constructor|].
    cbn [flat_map]. apply Forall_app. split; [apply section_block_types | done].
Qed.

(** ** Chunk sizes *)

(** X10: a text of [n] characters is cut into [ceil(n / 50)] chunks; every
    chunk but the last has exactly 50 characters and the last has the
    remaining 1 to 50. *)
Theorem chunk_sizes (s : str) :
  length (chunks s) = ceil50 (length s)
  ∧ ∀ k c, chunks s !! k = Some c →
      length c = Nat.min 50 (length s - k * 50)
      ∧ (1 ≤ length c ≤ 50)%nat
      ∧ ((S k < length (chunks s))%nat → length c = 50%nat).
Proof.
  assert (length (chunks s) = ceil50 (length s)) as Hlen.
  { rewrite chunks_unfold, length_map, length_seq. reflexivity. }
  split; [done|]. intros k c Hk.
  apply chunks_lookup in Hk as [-> Hlt].
  rewrite length_take, length_drop, Hlen. unfold ceil50.
  pose proof (Nat.div_mod_eq (length s + 49) 50) as Hd.
  pose proof (Nat.mod_upper_bound (length s + 49) 50) as Hm.
  repeat split; lia.
Qed.

(** ** calculate_complexity_metrics: lines and nesting counters *)

Lemma split_lines_length (s : str) :
  len (split_lines s) = 1 + count [newline] s.
Proof.
  unfold len, count. induction s as [|c s IH]; [done|].
  rewrite split_lines_cons. cbn [count_from startswith length Nat.sub].
  rewrite (Ascii.eqb_sym newline c), andb_true_r.
  destruct (Ascii.eqb c newline); cbn [length]; [lia|].
  rewrite (split_lines_hd_tl s) in IH. cbn [length] in IH. lia.
Qed.

(** X3: [total_lines] is one more than the number of line breaks of the
    code, so it is 1 for the empty string and a final line break counts
    one more (empty) line. *)
Theorem complexity_total_lines (code : str) :
  dict_get (py "total_lines") (calculate_complexity_metrics code)
  = Some (VInt (1 + count [newline] code))
  ∧ 1 ≤ 1 + count [newline] code.
Proof.
  split.
  - unfold calculate_complexity_metrics. cbv zeta. rewrite split_lines_length.
    repeat case_match; reflexivity.
  - rewrite <- split_lines_length. unfold len.
    rewrite split_lines_hd_tl. cbn [length]. lia.
Qed.

Lemma complexity_step_bounds st line n :
  0 ≤ nesting_level st ≤ max_nesting st →
  max_nesting st ≤ n →
  0 ≤ nested_loops st ≤ Z.max 0 (n - 1) →
  (nested_loops st = 0 ↔ max_nesting st ≤ 1) →
  let st' := complexity_step st line in
  0 ≤ nesting_level st' ≤ max_nesting st'
  ∧ max_nesting st' ≤ n + 1
  ∧ 0 ≤ nested_loops st' ≤ Z.max 0 n
  ∧ (nested_loops st' = 0 ↔ max_nesting st' ≤ 1).
Proof.
  intros H1 H2 H3 H4. unfold complexity_step.
  destruct (any_in loops (lower line));
    destruct (contains (py "}") line || contains (py "end") (lower line));
    cbn [nesting_level max_nesting nested_loops];
    rewrite ?Z.gtb_ltb; try destruct (Z.ltb_spec 1 (nesting_level st + 1)); lia.
Qed.

Lemma scan_nesting_bounds (lines : list str) :
  let st := scan_nesting lines in
  0 ≤ nesting_level st ≤ max_nesting st
  ∧ max_nesting st ≤ len lines
  ∧ 0 ≤ nested_loops st ≤ Z.max 0 (len lines - 1)
  ∧ (nested_loops st = 0 ↔ max_nesting st ≤ 1).
Proof.
  unfold scan_nesting. induction lines as [|line lines IH] using rev_ind.
  - vm_compute. repeat split; try discriminate; intros; try discriminate; reflexivity.
  - rewrite fold_left_app. cbn [fold_left].
    destruct IH as (H1 & H2 & H3 & H4).
    pose proof (complexity_step_bounds _ line _ H1 H2 H3 H4) as H.
    unfold len in *. rewrite length_app. cbn [length].
    replace (Z.of_nat (length lines + 1)) with (Z.of_nat (length lines) + 1) by lia.
    replace (Z.of_nat (length lines) + 1 - 1) with (Z.of_nat (length lines)) by lia.
    exact H.
Qed.

(** X4: the nesting counters stay within the number of lines:
    [max_nesting_level] is between 0 and [total_lines], [nested_loops]
    between 0 and [total_lines - 1], and [nested_loops] is 0 exactly when
    [max_nesting_level] is at most 1.  The running level never goes below
    0, whatever the number of closing lines. *)
Theorem nesting_counters_bounds (code : str) :
  ∃ total nested deepest,
    dict_get (py "total_lines") (calculate_complexity_metrics code) = Some (VInt total)
    ∧ dict_get (py "nested_loops") (calculate_complexity_metrics code) = Some (VInt nested)
    ∧ dict_get (py "max_nesting_level") (calculate_complexity_metrics code)
      = Some (VInt deepest)
    ∧ 0 ≤ deepest ≤ total
    ∧ 0 ≤ nested ≤ total - 1
    ∧ (nested = 0 ↔ deepest ≤ 1)
    ∧ 0 ≤ nesting_level (scan_nesting (split_lines code)).
Proof.
  exists (len (split_lines code)), (nested_loops (scan_nesting (split_lines code))),
         (max_nesting (scan_nesting (split_lines code))).
  pose proof (scan_nesting_bounds (split_lines code)) as (H1 & H2 & H3 & H4).
  assert (1 ≤ len (split_lines code)) as Hpos.
  { unfold len. rewrite split_lines_hd_tl. cbn [length]. lia. }
  unfold calculate_complexity_metrics. cbv zeta.
  repeat split; try (repeat case_match; reflexivity); try lia; apply H4.
Qed.

(** ** Code without any of the keywords *)

Lemma count_from_absent (sub s : str) k :
  contains sub s = false → count_from sub s k = 0.
Proof.
  revert k. induction s as [|c s IH]; intros k H.
  - cbn in *. by destruct sub.
  - cbn [contains] in H. apply orb_false_iff in H as [Hs Hc].
    cbn [count_from]. destruct k; [rewrite Hs|]; by apply IH.
Qed.

Lemma contains_absent_lines (sub s : str) :
  one_line sub = true → contains sub s = false →
  Forall (fun l => contains sub l = false) (split_lines s).
Proof.
  intros Hsub H. rewrite (contains_lines sub s Hsub) in H.
  induction (split_lines s) as [|l ls IH]; [constructor|].
  cbn in H. apply orb_false_iff in H as [Hl Hls]. constructor; [done | by apply IH].
Qed.

Lemma scan_nesting_no_loops (lines : list str) :
  Forall (fun l => any_in loops (lower l) = false) lines →
  scan_nesting lines = {| nesting_level := 0; max_nesting := 0; nested_loops := 0 |}.
Proof.
  unfold scan_nesting.
  induction 1 as [|l lines Hl _ IH]; [done|].
  cbn [fold_left]. unfold complexity_step at 2. rewrite Hl.
  cbn [nesting_level max_nesting nested_loops Z.sub Z.add Z.opp Z.max Z.compare].
  by destruct (contains (py "}") l || contains (py "end") (lower l)).
Qed.

(** X5: code whose lowercased text contains none of the loop, query and
    blocking keywords has no nesting, a [complexity_score] of 0 and the
    level ['Low'], however many closing braces or [end]s it has. *)
Theorem keyword_free_code_scores_zero (code : str) :
  Forall (fun k => contains k (lower code) = false) complexity_keywords →
  dict_get (py "nested_loops") (calculate_complexity_metrics code) = Some (VInt 0)
  ∧ dict_get (py "max_nesting_level") (calculate_complexity_metrics code) = Some (VInt 0)
  ∧ dict_get (py "database_queries") (calculate_complexity_metrics code) = Some (VInt 0)
  ∧ dict_get (py "blocking_operations") (calculate_complexity_metrics code) = Some (VInt 0)
  ∧ dict_get (py "complexity_score") (calculate_complexity_metrics code) = Some (VInt 0)
  ∧ dict_get (py "complexity_level") (calculate_complexity_metrics code)
    = Some (VStr (py "Low")).
Proof.
  unfold complexity_keywords. cbn [map]. intros H.
  repeat (apply Forall_cons in H as [?Hk H]).
  assert (scan_nesting (split_lines code)
          = {| nesting_level := 0; max_nesting := 0; nested_loops := 0 |}) as Hscan.
  { apply scan_nesting_no_loops.
    pose proof (contains_absent_lines (py "for ") _ eq_refl Hk) as H1.
    pose proof (contains_absent_lines (py "while ") _ eq_refl Hk0) as H2.
    pose proof (contains_absent_lines (py "foreach") _ eq_refl Hk1) as H3.
    rewrite split_lines_lower in H1, H2, H3.
    rewrite Forall_fmap in H1, H2, H3.
    rewrite Forall_forall in *. intros l Hl.
    specialize (H1 l Hl). specialize (H2 l Hl). specialize (H3 l Hl).
    unfold compose in H1, H2, H3. unfold any_in, loops. cbn [map existsb].
    by rewrite H1, H2, H3. }
  unfold calculate_complexity_metrics. cbv zeta. rewrite Hscan.
  unfold count.
  rewrite !count_from_absent by done.
  cbn [nesting_level max_nesting nested_loops].
  repeat split; reflexivity.
Qed.

Lemma keyword_free_code_scores_zero_witness :
  dict_get (py "nested_loops") (calculate_complexity_metrics (py "total = a + b
}")) = Some (VInt 0)
  ∧ dict_get (py "max_nesting_level") (calculate_complexity_metrics (py "total = a + b
}")) = Some (VInt 0)
  ∧ dict_get (py "database_queries") (calculate_complexity_metrics (py "total = a + b
}")) = Some (VInt 0)
  ∧ dict_get (py "blocking_operations") (calculate_complexity_metrics (py "total = a + b
}")) = Some (VInt 0)
  ∧ dict_get (py "complexity_score") (calculate_complexity_metrics (py "total = a + b
}")) = Some (VInt 0)
  ∧ dict_get (py "complexity_level") (calculate_complexity_metrics (py "total = a + b
}")) = Some (VStr (py "Low")).
Proof.
  apply (keyword_free_code_scores_zero (py "total = a + b
}")).
  apply (bool_decide_unpack _). vm_compute. exact I.
Defined.

(** ** Letter case *)

Lemma brace_lower_char c :
  Ascii.eqb "}" (lower_char c) = Ascii.eqb "}" c.
Proof. destruct c as [[] [] [] [] [] [] [] []]; reflexivity. Qed.

Lemma contains_brace_lower (l : str) :
  contains (py "}") (lower l) = contains (py "}") l.
Proof.
  induction l as [|c l IH]; [done|].
  change (lower (c :: l)) with (lower_char c :: lower l).
  cbn [contains startswith py list_ascii_of_string] in *.
  by rewrite brace_lower_char, IH.
Qed.

Lemma complexity_step_folded st (l l' : str) :
  lower l = lower l' → complexity_step st l = complexity_step st l'.
Proof.
  intros H. unfold complexity_step.
  by rewrite <- (contains_brace_lower l), <- (contains_brace_lower l'), H.
Qed.

Lemma scan_nesting_folded (ls ls' : list str) :
  map lower ls = map lower ls' → scan_nesting ls = scan_nesting ls'.
Proof.
  unfold scan_nesting. generalize {| nesting_level := 0; max_nesting := 0; nested_loops := 0 |}.
  revert ls'. induction ls as [|l ls IH]; intros [|l' ls'] st; try done.
  cbn [map fold_left]. intros [= Hl Hls].
  rewrite (complexity_step_folded st l l' Hl). by apply IH.
Qed.

(** X1: [analyze_security_patterns] and [calculate_complexity_metrics]
    do not see letter case: two codes with the same lowercased text get
    the same result. *)
Theorem analysis_ignores_letter_case (code code' pattern_type : str) :
  lower code = lower code' →
  analyze_security_patterns code pattern_type
  = analyze_security_patterns code' pattern_type
  ∧ calculate_complexity_metrics code = calculate_complexity_metrics code'.
Proof.
  intros H. split.
  - unfold analyze_security_patterns.
    destruct (patterns !! pattern_type) as [p|]; [|done]. cbn zeta.
    by rewrite !scan_indicators_filter, H.
  - assert (map lower (split_lines code) = map lower (split_lines code')) as Hl
      by (by rewrite <- !split_lines_lower, H).
    unfold calculate_complexity_metrics. cbv zeta.
    rewrite (scan_nesting_folded _ _ Hl), H.
    assert (len (split_lines code) = len (split_lines code')) as ->; [|done].
    unfold len. f_equal. by rewrite <- (length_map lower), Hl, length_map.
Qed.

Lemma analysis_ignores_letter_case_witness :
  analyze_security_patterns (py "Select * From T WHERE x = 1") (py "sql_injection")
  = analyze_security_patterns (py "SELECT * FROM t where X = 1") (py "sql_injection")
  ∧ calculate_complexity_metrics (py "Select * From T WHERE x = 1")
    = calculate_complexity_metrics (py "SELECT * FROM t where X = 1").
Proof.
  apply (analysis_ignores_letter_case (py "Select * From T WHERE x = 1")
           (py "SELECT * FROM t where X = 1") (py "sql_injection")).
  vm_compute. reflexivity.
Defined.

(** ** More code, no fewer findings *)

Lemma startswith_app (sub s after : str) :
  startswith sub s = true → startswith sub (s ++ after) = true.
Proof.
  revert s. induction sub as [|a sub IH]; intros [|b s]; try done.
  cbn. intros H. apply andb_prop in H as [-> H]. by apply IH.
Qed.

Lemma contains_app_r (sub s after : str) :
  contains sub s = true → contains sub (s ++ after) = true.
Proof.
  induction s as [|c s IH].
  - cbn. rewrite orb_false_r. destruct sub; [|done]. by destruct after.
  - cbn [contains app]. intros H. apply orb_prop in H as [H|H].
    + pose proof (startswith_app sub (c :: s) after H) as Hs.
      cbn [app] in Hs. by rewrite Hs.
    + by rewrite (IH H), orb_true_r.
Qed.

Lemma contains_app_l (sub s before : str) :
  contains sub s = true → contains sub (before ++ s) = true.
Proof.
  intros H. induction before as [|c before IH]; [done|].
  cbn [app contains]. by rewrite IH, orb_true_r.
Qed.

Lemma filter_sublist {A B} (h : A → B) (f g : A → bool) (l : list A) :
  (∀ x, f x = true → g x = true) →
  sublist (map h (List.filter f l)) (map h (List.filter g l)).
Proof.
  intros Hfg. induction l as [|x l IH]; [constructor|].
  cbn [List.filter]. destruct (f x) eqn:Hf.
  - rewrite (Hfg x Hf). cbn [map]. by constructor.
  - destruct (g x); cbn [map]; [by constructor | done].
Qed.

(** X2: text added before or after the code never removes a finding:
    for a known pattern type the findings of the code are a sublist of
    the findings of the longer code, and [total_findings] does not
    decrease. *)
Theorem findings_grow_with_code (code before after pattern_type : str) :
  pattern_type ∈ known_pattern_types →
  ∃ fs fs',
    dict_get (py "findings") (analyze_security_patterns code pattern_type)
    = Some (VList fs)
    ∧ dict_get (py "findings")
        (analyze_security_patterns (before ++ code ++ after) pattern_type)
      = Some (VList fs')
    ∧ sublist fs fs'
    ∧ dict_get (py "total_findings") (analyze_security_patterns code pattern_type)
      = Some (VInt (len fs))
    ∧ dict_get (py "total_findings")
        (analyze_security_patterns (before ++ code ++ after) pattern_type)
      = Some (VInt (len fs'))
    ∧ len fs ≤ len fs'.
Proof.
  intros Hk. destruct (known_pattern_lookup _ Hk) as (p & Hp & _).
  unfold analyze_security_patterns. rewrite Hp. cbn zeta.
  rewrite !scan_indicators_filter. cbn [app].
  eexists _, _. split; [reflexivity|]. split; [reflexivity|].
  assert (sublist
            (map (finding p)
               (List.filter (fun i => contains (lower i) (lower code)) (indicators p)))
            (map (finding p)
               (List.filter (fun i => contains (lower i) (lower (before ++ code ++ after)))
                  (indicators p)))) as Hsub.
  { apply filter_sublist. intros i Hi. unfold lower. rewrite !map_app.
    by apply contains_app_l, contains_app_r. }
  split; [done|]. split; [reflexivity|]. split; [reflexivity|].
  unfold len. apply sublist_length in Hsub. lia.
Qed.

Lemma findings_grow_with_code_witness :
  ∃ fs fs',
    dict_get (py "findings") (analyze_security_patterns (py "eval(x)") (py "xss"))
    = Some (VList fs)
    ∧ dict_get (py "findings")
        (analyze_security_patterns (py "el.innerHTML = " ++ py "eval(x)" ++ py ";") (py "xss"))
      = Some (VList fs')
    ∧ sublist fs fs'
    ∧ dict_get (py "total_findings") (analyze_security_patterns (py "eval(x)") (py "xss"))
      = Some (VInt (len fs))
    ∧ dict_get (py "total_findings")
        (analyze_security_patterns (py "el.innerHTML = " ++ py "eval(x)" ++ py ";") (py "xss"))
      = Some (VInt (len fs'))
    ∧ len fs ≤ len fs'.
Proof.
  apply (findings_grow_with_code (py "eval(x)") (py "el.innerHTML = ") (py ";") (py "xss")).
  apply (bool_decide_unpack _). vm_compute. exact I.
Defined.

(** ** assess_code_quality_metrics: the line counts *)

Lemma filter_length_impl {A} (f g : A → bool) (l : list A) :
  (∀ x, f x = true → g x = true) →
  (length (List.filter f l) ≤ length (List.filter g l))%nat.
Proof.
  intros Hfg. induction l as [|x l IH]; [done|]. cbn [List.filter].
  destruct (f x) eqn:Hf.
  - rewrite (Hfg x Hf). cbn [length]. lia.
  - destruct (g x); cbn [length]; lia.
Qed.

Lemma comment_line_not_blank (l : str) :
  is_comment l = true → truthy (strip l) = true.
Proof. unfold is_comment. by destruct (strip l). Qed.

(** X6: a comment line is never counted as blank: [comment_lines] is at
    most [total_lines], the number of non-blank lines, which is at most
    the number of lines of the code, one more than its line breaks; so is
    [long_lines]. *)
Theorem quality_line_counts (code : str) :
  ∃ total comments long,
    dict_get (py "total_lines") (assess_code_quality_metrics code) = Some (VInt total)
    ∧ dict_get (py "comment_lines") (assess_code_quality_metrics code)
      = Some (VInt comments)
    ∧ dict_get (py "long_lines") (assess_code_quality_metrics code) = Some (VInt long)
    ∧ 0 ≤ comments ≤ total
    ∧ total ≤ 1 + count [newline] code
    ∧ 0 ≤ long ≤ 1 + count [newline] code.
Proof.
  eexists _, _, _. split; [reflexivity|]. split; [reflexivity|]. split; [reflexivity|].
  rewrite <- split_lines_length. unfold len.
  pose proof (filter_length_impl is_comment (fun l => truthy (strip l))
                (split_lines code) comment_line_not_blank).
  pose proof (filter_length (fun l => truthy (strip l)) (split_lines code)).
  pose proof (filter_length (fun l => Z.of_nat (length l) >? 100) (split_lines code)).
  cbv beta in *.
  set (a := length (List.filter is_comment (split_lines code))) in *.
  set (b := length (List.filter (fun l => truthy (strip l)) (split_lines code))) in *.
  set (c := length (List.filter (fun l => Z.of_nat (length l) >? 100) (split_lines code))) in *.
  lia.
Qed.

(** ** Answers without a marker *)

Lemma marker_starts_hashes (g m rest : str) :
  marker g m rest → ∃ tail, m = hash :: hash :: tail.
Proof. intros (ws & -> & _). by eexists. Qed.

Lemma search_needs_hashes (s : str) :
  contains (py "##") s = false → search s = None.
Proof.
  intros H. destruct (search s) as [[[pre g] rest]|] eqn:Hs; [|done].
  apply search_some in Hs as (m & -> & Hm & _).
  apply marker_starts_hashes in Hm as (tail & ->).
  rewrite (contains_app_l (py "##") (hash :: hash :: tail) pre) in H; [done|].
  reflexivity.
Qed.

Lemma parse_sections_no_hashes (s : str) :
  contains (py "##") s = false → parse_sections s = empty_sections.
Proof.
  intros H. apply search_needs_hashes in H.
  unfold parse_sections, re_split. cbn zeta.
  assert (split_from (length s) s = [s]) as ->; [|reflexivity].
  destruct (length s); [done|]. cbn [split_from]. by rewrite H.
Qed.

(** X7: when the answer of the agent has no [##] in it, no section is
    found and nothing of the answer reaches the client: the stream is the
    four placeholder sections and [complete]. *)
Theorem headerless_answer_streams_placeholders
    (agent : str → outcome) (code full_analysis : str) :
  agent (build_query code) = Returned full_analysis →
  contains (py "##") full_analysis = false →
  parse_sections full_analysis = empty_sections
  ∧ generate_review_stream agent code = placeholder_stream.
Proof.
  intros Ha Hc. pose proof (parse_sections_no_hashes _ Hc) as Hp.
  split; [done|]. rewrite (stream_returned _ _ _ Ha), Hp. reflexivity.
Qed.

Lemma headerless_answer_streams_placeholders_witness :
  parse_sections (py "The code looks fine. # no issues") = empty_sections
  ∧ generate_review_stream (fun _ => Returned (py "The code looks fine. # no issues"))
      (py "x = 1") = placeholder_stream.
Proof.
  apply (headerless_answer_streams_placeholders
           (fun _ => Returned (py "The code looks fine. # no issues")) (py "x = 1")
           (py "The code looks fine. # no issues")).
  - reflexivity.
  - vm_compute. reflexivity.
Defined.

(** ** Text before the first marker *)

Lemma marker_free_prepend (pre s : str) n :
  hash ∉ pre → marker_free n s → marker_free (length pre + n) (pre ++ s).
Proof.
  intros Hpre Hfree i g rest Hi Hm.
  destruct (decide (i < length pre)%nat) as [Hlt|Hge].
  - apply marker_starts_hashes in Hm as (tail & Hm).
    rewrite drop_app_le in Hm by lia.
    destruct (drop i pre) as [|c d] eqn:Hd.
    + apply (f_equal length) in Hd. rewrite length_drop in Hd. cbn in Hd. lia.
    + cbn in Hm. injection Hm as -> _. apply Hpre.
      apply (subseteq_drop i). rewrite Hd. by left.
  - rewrite drop_app_ge in Hm by lia.
    apply (Hfree (i - length pre)%nat g rest); [lia | done].
Qed.

Lemma layout_prepend (pre s p : str) blocks :
  hash ∉ pre → layout s p blocks → layout (pre ++ s) (pre ++ p) blocks.
Proof.
  intros Hpre H. destruct H as [s Hfree | p m g rest body blocks Hfree Hm Hl].
  - apply layout_end. rewrite length_app.
    replace (S (length pre + length s)) with (length pre + S (length s))%nat by lia.
    by apply marker_free_prepend.
  - rewrite app_assoc. apply (layout_block (pre ++ p) m g rest); [|done|done].
    rewrite length_app, <- app_assoc. by apply marker_free_prepend.
Qed.

(** X8: text that comes before the answer and has no [#] in it does not
    change what is parsed: whatever precedes the first marker is left
    out of every section. *)
Theorem preamble_ignored (pre full_response : str) :
  hash ∉ pre →
  parse_sections (pre ++ full_response) = parse_sections full_response.
Proof.
  intros Hpre. rewrite !parse_sections_blocks. f_equal.
  symmetry. eapply layout_unique. apply layout_prepend; [done|].
  apply re_split_layout.
Qed.

Lemma preamble_ignored_witness :
  parse_sections (py "Here is my review.
" ++ py "## SECURITY ANALYSIS
ok")
  = parse_sections (py "## SECURITY ANALYSIS
ok").
Proof.
  apply (preamble_ignored (py "Here is my review.
") (py "## SECURITY ANALYSIS
ok")).
  apply (bool_decide_unpack _). vm_compute. exact I.
Defined.

(** ** The answer the prompt asks for *)

Lemma hash_free_marker_free (t : str) n : hash ∉ t → marker_free n t.
Proof.
  intros Ht i g rest _ Hm. apply marker_starts_hashes in Hm as (tail & Hm).
  apply Ht. apply (subseteq_drop i). rewrite Hm. by left.
Qed.

Lemma layout_hash_free_block (t g m rest body : str) blocks :
  hash ∉ t → marker g m rest → layout rest body blocks →
  layout (t ++ m) t ((g, body) :: blocks).
Proof.
  intros Ht Hm Hl. apply (layout_block t m g rest); [|done|done].
  intros i g' rest' Hi Hm'. apply marker_starts_hashes in Hm' as (tail & Hm').
  rewrite drop_app_le in Hm' by lia.
  destruct (drop i t) as [|c d] eqn:Hd.
  - apply (f_equal length) in Hd. rewrite length_drop in Hd. cbn in Hd. lia.
  - cbn in Hm'. injection Hm' as -> _. apply Ht.
    apply (subseteq_drop i). rewrite Hd. by left.
Qed.

Lemma canonical_marker (h rest : str) :
  h ∈ headers → marker h (py "## " ++ h ++ rest) rest.
Proof.
  intros Hh. exists (py " "). split; [reflexivity|]. split; [done|]. split; [reflexivity|].
  apply header_is_key. by exists h.
Qed.

(** X9: an answer in the format the prompt asks for is read back: when
    the introduction and the four texts have no [#] in them, each section
    maps to its own text, stripped. *)
Theorem rendered_response_parses_back
    (intro security performance readability summary : str) :
  hash ∉ intro → hash ∉ security → hash ∉ performance →
  hash ∉ readability → hash ∉ summary →
  let sections :=
    parse_sections (intro ++ render_response security performance readability summary) in
  sections !! py "security" = Some (strip security)
  ∧ sections !! py "performance" = Some (strip performance)
  ∧ sections !! py "readability" = Some (strip readability)
  ∧ sections !! py "summary" = Some (strip summary).
Proof.
  intros H0 H1 H2 H3 H4.
  assert (∀ s : string, bool_decide (py s ∈ headers) = true → py s ∈ headers) as Hin
    by (intros s Hb; by apply bool_decide_eq_true in Hb).
  assert (layout (intro ++ render_response security performance readability summary)
            intro
            [ (py "SECURITY ANALYSIS", security);
              (py "PERFORMANCE ANALYSIS", performance);
              (py "READABILITY ANALYSIS", readability);
              (py "COMPREHENSIVE SUMMARY", summary) ]) as Hl.
  { unfold render_response.
    apply (layout_hash_free_block intro _ _
             (security ++ py "## PERFORMANCE ANALYSIS" ++ performance
              ++ py "## READABILITY ANALYSIS" ++ readability
              ++ py "## COMPREHENSIVE SUMMARY" ++ summary)); [done| |].
    { apply (canonical_marker (py "SECURITY ANALYSIS")), Hin. reflexivity. }
    apply (layout_hash_free_block security _ _
             (performance ++ py "## READABILITY ANALYSIS" ++ readability
              ++ py "## COMPREHENSIVE SUMMARY" ++ summary)); [done| |].
    { apply (canonical_marker (py "PERFORMANCE ANALYSIS")), Hin. reflexivity. }
    apply (layout_hash_free_block performance _ _
             (readability ++ py "## COMPREHENSIVE SUMMARY" ++ summary)); [done| |].
    { apply (canonical_marker (py "READABILITY ANALYSIS")), Hin. reflexivity. }
    apply (layout_hash_free_block readability _ _ summary); [done| |].
    { apply (canonical_marker (py "COMPREHENSIVE SUMMARY")), Hin. reflexivity. }
    apply layout_end. by apply hash_free_marker_free. }
  apply layout_unique in Hl. cbn zeta.
  assert (∀ s : string, bool_decide (py s ∈ section_order) = true → py s ∈ section_order)
    as Hord by (intros s Hb; by apply bool_decide_eq_true in Hb).
  rewrite !parse_sections_last_text by (apply Hord; reflexivity).
  rewrite <- Hl. repeat split; vm_compute; reflexivity.
Qed.

Lemma rendered_response_parses_back_witness :
  let sections :=
    parse_sections (py "Review:
" ++ render_response (py "
no secrets
") (py "
one loop
") (py "
clear
") (py "
8/10")) in
  sections !! py "security" = Some (strip (py "
no secrets
"))
  ∧ sections !! py "performance" = Some (strip (py "
one loop
"))
  ∧ sections !! py "readability" = Some (strip (py "
clear
"))
  ∧ sections !! py "summary" = Some (strip (py "
8/10")).
Proof.
  apply (rendered_response_parses_back (py "Review:
") (py "
no secrets
") (py "
one loop
") (py "
clear
") (py "
8/10")); apply (bool_decide_unpack _); vm_compute; exact I.
Defined.

(** ** What the parser stores, what the emitter sends *)

(** X15: a text stored by [parse_sections] neither starts nor ends with a
    white-space character, so the [strip()] of the emitter leaves it as
    it is. *)
Theorem parsed_texts_have_no_outer_space (full_response key t : str) :
  parse_sections full_response !! key = Some t →
  strip t = t
  ∧ (∀ c rest, t = c :: rest → isspace c = false)
  ∧ (∀ front c, t = front ++ [c] → isspace c = false).
Proof.
  intros H. pose proof (parse_sections_stripped _ _ _ H) as Hs.
  assert (lstrip t = t) as Hl.
  { rewrite <- Hs at 1. unfold strip.
    rewrite (rstrip_keeps_start (lstrip t)) by apply lstrip_idem. exact Hs. }
  assert (rstrip t = t) as Hr.
  { rewrite <- Hs at 1. unfold strip. rewrite rstrip_idem. exact Hs. }
  split; [done|]. split.
  - intros c rest ->. by apply lstrip_fixed_head in Hl.
  - intros front c ->. unfold rstrip in Hr.
    apply (f_equal (@rev ascii)) in Hr. rewrite rev_involutive in Hr.
    rewrite rev_app_distr in Hr. cbn [rev app] in Hr.
    by apply lstrip_fixed_head in Hr.
Qed.

Lemma parsed_texts_have_no_outer_space_witness :
  strip (py "fine.") = py "fine."
  ∧ (∀ c rest, py "fine." = c :: rest → isspace c = false)
  ∧ (∀ front c, py "fine." = front ++ [c] → isspace c = false).
Proof.
  apply (parsed_texts_have_no_outer_space (py "## SUMMARY ## Comprehensive Summary
   fine.
") (py "summary") (py "fine.")).
  vm_compute. reflexivity.
Defined.

Lemma section_block_length name (texts : list str) :
  length (section_block name texts) = (2 + length texts)%nat.
Proof.
  unfold section_block. cbn [length]. rewrite length_app, length_map. cbn [length]. lia.
Qed.

Lemma section_texts_length (full_response name : str) :
  name ∈ section_order →
  length (section_texts (parse_sections full_response) name) =
  Nat.max 1 (ceil50 (length (default [] (parse_sections full_response !! name)))).
Proof.
  intros Hn. unfold section_texts.
  destruct (parse_sections_lookup full_response name Hn) as [t Ht]. rewrite Ht.
  rewrite (parse_sections_stripped _ _ _ Ht).
  change (default [] (Some t)) with t.
  destruct t as [|c t]; [reflexivity|]. cbn [truthy].
  rewrite chunks_unfold, length_map, length_seq. unfold ceil50.
  generalize (length (c :: t)) (eq_refl : length (c :: t) = S (length t)).
  intros n Hn'.
  pose proof (Nat.div_mod_eq (n + 49) 50) as Hd.
  pose proof (Nat.mod_upper_bound (n + 49) 50) as Hm. lia.
Qed.

(** X16: when the agent returns, the number of frames of the stream is 9
    (two per section and the final [complete]) plus, for each section,
    [ceil(n / 50)] content frames for a text of [n] characters, and one
    for an empty text. *)
Theorem stream_length (agent : str → outcome) (code full_analysis : str) :
  agent (build_query code) = Returned full_analysis →
  let frames_of name :=
    Nat.max 1 (ceil50 (length (default [] (parse_sections full_analysis !! py name)))) in
  length (generate_review_stream agent code) =
  (9 + frames_of "security" + frames_of "performance"
   + frames_of "readability" + frames_of "summary")%nat.
Proof.
  intros Ha. cbn zeta. rewrite (stream_returned _ _ _ Ha).
  assert (∀ s : string, bool_decide (py s ∈ section_order) = true → py s ∈ section_order)
    as Hin by (intros s Hb; by apply bool_decide_eq_true in Hb).
  rewrite <- !(section_texts_length full_analysis) by (apply Hin; reflexivity).
  unfold section_order. cbn [map flat_map].
  rewrite !length_app, !section_block_length. cbn [length]. lia.
Qed.

Lemma stream_length_witness :
  let frames_of name :=
    Nat.max 1 (ceil50 (length (default []
      (parse_sections (py "## SECURITY ANALYSIS fine") !! py name)))) in
  length (generate_review_stream (fun _ => Returned (py "## SECURITY ANALYSIS fine"))
            (py "x = 1")) =
  (9 + frames_of "security" + frames_of "performance"
   + frames_of "readability" + frames_of "summary")%nat.
Proof.
  apply (stream_length (fun _ => Returned (py "## SECURITY ANALYSIS fine")) (py "x = 1")
           (py "## SECURITY ANALYSIS fine")).
  reflexivity.
Defined.

(** ** Set-up and health check together *)

(** X17: after a successful import the region that [GET /health] reports
    is the value the import stored in [AWS_DEFAULT_REGION], and the health
    check leaves the environment as it is. *)
Theorem health_reports_configured_region (g g' : globals) :
  startup g = inr g' →
  ∃ region,
    environ g' !! py "AWS_DEFAULT_REGION" = Some region
    ∧ dict_get (py "region") (fst (health_check g')) = Some (VStr region)
    ∧ dict_get (py "status") (fst (health_check g')) = Some (VStr (py "healthy"))
    ∧ snd (health_check g') = g'.
Proof.
  unfold startup, setenv.
  destruct (environ g !! py "AWS_ACCESS_KEY_ID") as [k|] eqn:Hk; [|done].
  rewrite (insert_id _ _ _ Hk).
  destruct (environ g !! py "AWS_SECRET_ACCESS_KEY") as [v|] eqn:Hv; [|done].
  rewrite (insert_id _ _ _ Hv). intros [= <-].
  set (region := match environ g !! py "AWS_REGION" with
                 | Some v => v
                 | None => py "us-east-1"
                 end).
  exists region. cbn [environ]. split; [apply lookup_insert_eq|].
  unfold health_check, bind, getenv, ret. cbn [environ fst snd].
  rewrite !lookup_insert_ne by (intros [=]).
  repeat split; reflexivity.
Qed.

Lemma health_reports_configured_region_witness :
  ∃ region,
    environ {| environ := <[py "AWS_DEFAULT_REGION" := py "eu-west-1"]>
                 (list_to_map [ (py "AWS_ACCESS_KEY_ID", py "k");
                                (py "AWS_SECRET_ACCESS_KEY", py "s");
                                (py "AWS_REGION", py "eu-west-1") ]) |}
      !! py "AWS_DEFAULT_REGION" = Some region
    ∧ dict_get (py "region")
        (fst (health_check
                {| environ := <[py "AWS_DEFAULT_REGION" := py "eu-west-1"]>
                     (list_to_map [ (py "AWS_ACCESS_KEY_ID", py "k");
                                    (py "AWS_SECRET_ACCESS_KEY", py "s");
                                    (py "AWS_REGION", py "eu-west-1") ]) |}))
      = Some (VStr region)
    ∧ dict_get (py "status")
        (fst (health_check
                {| environ := <[py "AWS_DEFAULT_REGION" := py "eu-west-1"]>
                     (list_to_map [ (py "AWS_ACCESS_KEY_ID", py "k");
                                    (py "AWS_SECRET_ACCESS_KEY", py "s");
                                    (py "AWS_REGION", py "eu-west-1") ]) |}))
      = Some (VStr (py "healthy"))
    ∧ snd (health_check
             {| environ := <[py "AWS_DEFAULT_REGION" := py "eu-west-1"]>
                  (list_to_map [ (py "AWS_ACCESS_KEY_ID", py "k");
                                 (py "AWS_SECRET_ACCESS_KEY", py "s");
                                 (py "AWS_REGION", py "eu-west-1") ]) |})
      = {| environ := <[py "AWS_DEFAULT_REGION" := py "eu-west-1"]>
             (list_to_map [ (py "AWS_ACCESS_KEY_ID", py "k");
                            (py "AWS_SECRET_ACCESS_KEY", py "s");
                            (py "AWS_REGION", py "eu-west-1") ]) |}.
Proof.
  apply (health_reports_configured_region
           {| environ := list_to_map [ (py "AWS_ACCESS_KEY_ID", py "k");
                                       (py "AWS_SECRET_ACCESS_KEY", py "s");
                                       (py "AWS_REGION", py "eu-west-1") ] |}).
  vm_compute. reflexivity.
Defined.
